(** * Technician dispatch service: a shallow embedding of [app.py]

    The development follows the source file top-down:
    - Python's [float] is IEEE-754 binary64, taken from the standard library's
      [spec_float] (no NaN payload), with Python's comparison and division;
    - the JSON value returned by [resp.json()] is an inductive type, objects
      being association lists;
    - exceptions are a sum type, and code that may raise lives in the
      [result] monad;
    - the database is a record of three tables, a sequence and a clock;
    - the routing service is an oracle indexed by task and attempt number,
      and every request that is sent is written to a log; the tasks of one
      call run concurrently in the source, and since each has its own
      replies here their interleaving does not matter;
    - the C library behind the [math] module and Python's string-to-float
      parser are fields of a [platform] record the definitions take as a
      parameter. *)

From Stdlib Require Import ZArith List Bool Lia String Ascii.
From Stdlib Require Import SpecFloat DecimalString.
From Stdlib Require Import Sorted Permutation.
Import ListNotations.
Open Scope Z_scope.
Set Warnings "-register-all".

(* ================================================================== *)
(** * Python floats *)
(* ================================================================== *)

Module PyFloat.

Definition float : Type := spec_float.

Definition prec : Z := 53.
Definition emax : Z := 1024.

Definition fadd : float -> float -> float := SFadd prec emax.
Definition fsub : float -> float -> float := SFsub prec emax.
Definition fmul : float -> float -> float := SFmul prec emax.
Definition fdiv : float -> float -> float := SFdiv prec emax.
Definition fsqrt : float -> float := SFsqrt prec emax.

(** [a < b] and [a <= b] on Python floats: false whenever a NaN is
    involved. *)
Definition flt : float -> float -> bool := SFltb.
Definition fle : float -> float -> bool := SFleb.

Definition is_nan (x : float) : bool :=
    match x with S754_nan => true | _ => false end.

Definition is_zero (x : float) : bool :=
    match x with S754_zero _ => true | _ => false end.


(** [float("inf")] and [float("nan")]. *)
Definition inf : float := S754_infinity false.
Definition nan : float := S754_nan.

(** The float nearest to an integer (ties to even); an infinity when the
    integer is out of range. *)
Definition of_Z (z : Z) : float := binary_normalize prec emax z 0 false.

Definition zero : float := S754_zero false.
Definition one : float := Eval vm_compute in of_Z 1.
Definition two : float := Eval vm_compute in of_Z 2.
Definition thousand : float := Eval vm_compute in of_Z 1000.

(** A float is a number of the format when its mantissa and exponent are
    canonical. *)
Definition valid (x : float) : bool := valid_binary prec emax x.

(** The position of a float that is not a NaN on the extended real line,
    as a triple compared lexicographically: class and sign first, then
    exponent, then mantissa. *)
Definition fkey (x : float) : Z * Z * Z :=
    match x with
    | S754_nan => (0, 0, 0)
    | S754_zero _ => (0, 0, 0)
    | S754_infinity true => (-2, 0, 0)
    | S754_infinity false => (2, 0, 0)
    | S754_finite true m e => (-1, - e, Zneg m)
    | S754_finite false m e => (1, e, Zpos m)
    end.

Definition key_lt (a b : Z * Z * Z) : Prop :=
    let '(a1, a2, a3) := a in
    let '(b1, b2, b3) := b in
    a1 < b1 \/ (a1 = b1 /\ (a2 < b2 \/ (a2 = b2 /\ a3 < b3))).

Definition key_le (a b : Z * Z * Z) : Prop :=
    let '(a1, a2, a3) := a in
    let '(b1, b2, b3) := b in
    a1 < b1 \/ (a1 = b1 /\ (a2 < b2 \/ (a2 = b2 /\ a3 <= b3))).

End PyFloat.
Export PyFloat.

(* ================================================================== *)
(** * Exceptions and results *)
(* ================================================================== *)

(** The exceptions the modelled code can raise. *)
Inductive exn : Type :=
| TransportError                 (* httpx.TransportError, timeouts included *)
| HTTPStatusError                (* raised by [resp.raise_for_status()] *)
| JSONDecodeError                (* raised by [resp.json()] *)
| ValueError (msg : string)
| AttributeError
| TypeError
| KeyError
| IndexError
| OverflowError
| RetryError                     (* tenacity.RetryError *)
| ForeignKeyViolationError       (* asyncpg, from the INSERT *)
| DataError                      (* asyncpg: an argument out of int32 range *)
| SequenceGeneratorLimitExceededError. (* asyncpg: the id sequence is exhausted *)

Inductive result (A : Type) : Type :=
| Ok (a : A)
| Err (e : exn).
Arguments Ok {A} a.
Arguments Err {A} e.

Definition bind {A B : Type} (r : result A) (k : A -> result B) : result B :=
  match r with
  | Ok a => k a
  | Err e => Err e
  end.

Notation "x <- r ;; k" := (bind r (fun x => k))
  (at level 61, r at next level, right associativity).

Definition is_ok {A : Type} (r : result A) : bool :=
  match r with Ok _ => true | Err _ => false end.

(* ================================================================== *)
(** * The platform underneath the program *)
(* ================================================================== *)

(** What the program calls and the repository does not define: the C
    library functions behind [math.sin], [math.cos], [math.asin] and
    [math.sqrt], the [pow] behind [x ** y] on floats, and the parser behind
    [float(str)].  The [math] functions raise [ValueError] outside their
    domain, so they return a [result]. *)
Record platform : Type := {
  math_sin : float -> result float;
  math_cos : float -> result float;
  math_asin : float -> result float;
  math_sqrt : float -> result float;
  float_pow : float -> float -> result float;
  float_of_str : string -> option float
}.

(** [math.radians(x)] is [x * (pi / 180)] with the constant rounded to
    binary64 (0x1.1df46a2529d39p-6). *)
Definition deg_to_rad : float := S754_finite false 5030569068109113 (-58).
Definition math_radians (x : float) : float := fmul x deg_to_rad.

(* ================================================================== *)
(** * Geometric estimator: [haversine_km] *)
(* ================================================================== *)

Section Haversine.
Variable P : platform.

Definition R_earth : float := Eval vm_compute in of_Z 6371.

Definition haversine_km (lat1 lon1 lat2 lon2 : float) : result float :=
  let R := R_earth in
  let phi1 := math_radians lat1 in
  let phi2 := math_radians lat2 in
  let dphi := math_radians (fsub lat2 lat1) in
  let dlambda := math_radians (fsub lon2 lon1) in
  s1 <- math_sin P (fdiv dphi two) ;;
  s1sq <- float_pow P s1 two ;;
  c1 <- math_cos P phi1 ;;
  c2 <- math_cos P phi2 ;;
  s2 <- math_sin P (fdiv dlambda two) ;;
  s2sq <- float_pow P s2 two ;;
  let a := fadd s1sq (fmul (fmul c1 c2) s2sq) in
  r <- math_sqrt P a ;;
  h <- math_asin P r ;;
  Ok (fmul (fmul two R) h).
End Haversine.

(* ================================================================== *)
(** * JSON values as Python objects *)
(* ================================================================== *)

(** The value [resp.json()] returns.  [JNull] is [None]; an object is the
    dict built from it, as an association list with one binding per key. *)
Inductive json : Type :=
| JNull
| JBool (b : bool)
| JInt (z : Z)
| JFloat (f : float)
| JStr (s : string)
| JArr (items : list json)
| JObj (fields : list (string * json)).

Fixpoint assoc (k : string) (fields : list (string * json)) : option json :=
  match fields with
  | [] => None
  | (k', v) :: rest => if String.eqb k k' then Some v else assoc k rest
  end.

(** Python truth value: [None], [False], zero, and empty containers are
    false. *)
Definition truthy (v : json) : bool :=
  match v with
  | JNull => false
  | JBool b => b
  | JInt z => negb (z =? 0)
  | JFloat f => negb (is_zero f)
  | JStr s => negb (String.eqb s "")
  | JArr items => match items with [] => false | _ => true end
  | JObj fields => match fields with [] => false | _ => true end
  end.

(** [x or y]. *)
Definition py_or (x y : json) : json := if truthy x then x else y.

(** [obj.get(key, default)]: only dicts have [get]. *)
Definition py_get (obj : json) (key : string) (default : json) : result json :=
  match obj with
  | JObj fields =>
      match assoc key fields with
      | Some v => Ok v
      | None => Ok default
      end
  | _ => Err AttributeError
  end.

(** [obj[0]]. *)
Definition py_item0 (obj : json) : result json :=
  match obj with
  | JArr (x :: _) => Ok x
  | JArr [] => Err IndexError
  | JStr (String c _) => Ok (JStr (String c EmptyString))
  | JStr EmptyString => Err IndexError
  | JObj _ => Err KeyError
  | _ => Err TypeError
  end.

(** [float(int)]: rounds to nearest, [OverflowError] when out of range. *)
Definition float_of_int (z : Z) : result float :=
  match of_Z z with
  | S754_infinity _ => Err OverflowError
  | f => Ok f
  end.

Section Response.
Variable P : platform.

(** [float(x)]. *)
Definition py_float (x : json) : result float :=
  match x with
  | JInt z => float_of_int z
  | JFloat f => Ok f
  | JBool b => Ok (if b then one else zero)
  | JStr s =>
      match float_of_str P s with
      | Some f => Ok f
      | None => Err (ValueError "could not convert string to float")
      end
  | JNull | JArr _ | JObj _ => Err TypeError
  end.

(** Lines 94-99 of [get_distance_km]: from the decoded body to
    [distance_m], which is [JNull] when the summary has no distance. *)
Definition distance_m_of_body (data : json) : result json :=
  f <- py_get data "features" JNull ;;
  let features := py_or f (JArr []) in
  if negb (truthy features) then Err (ValueError "ORS returned no features")
  else
    first <- py_item0 features ;;
    props <- py_get first "properties" (JObj []) ;;
    s <- py_get props "summary" JNull ;;
    let summary := py_or s (JObj []) in
    py_get summary "distance" JNull.

(** Lines 94-102: from the decoded body to kilometres. *)
Definition distance_of_body (data : json) : result float :=
  distance_m <- distance_m_of_body data ;;
  match distance_m with
  | JNull => Err (ValueError "ORS response missing distance")
  | _ =>
      d <- py_float distance_m ;;
      Ok (fdiv d thousand)
  end.
End Response.

(* ================================================================== *)
(** * Routing resolver: one attempt, and the retry around it *)
(* ================================================================== *)

(** What one [client.get] can come back with: an exception of the
    transport (timeouts included), or a response.  Of the response the
    code looks at whether [raise_for_status()] raises and at the body,
    which is [None] here when it is not JSON. *)
Inductive http_reply : Type :=
| NetworkError
| Reply (status_raises : bool) (body : option json).

(** The query parameters [start] and [end] of the request. *)
Record ors_request : Type := {
  start_lon : float; start_lat : float;
  end_lon : float; end_lat : float
}.

Section Attempt.
Variable P : platform.

(** The body of [get_distance_km], lines 90-102, given the reply to its
    request. *)
Definition attempt (r : http_reply) : result float :=
  match r with
  | NetworkError => Err TransportError
  | Reply true _ => Err HTTPStatusError
  | Reply false None => Err JSONDecodeError
  | Reply false (Some data) => distance_of_body P data
  end.
End Attempt.

(** The arguments of the [@retry] decorator. *)
Record retry_policy : Type := {
  wait_min : Z;
  wait_max : Z;
  stop_attempts : nat;
  reraise : bool
}.

(** Line 88: [wait_exponential(min=1, max=10)], [stop_after_attempt(3)],
    [reraise=True]. *)
Definition get_distance_km_policy : retry_policy :=
  {| wait_min := 1; wait_max := 10; stop_attempts := 3; reraise := true |}.

(** tenacity's [wait_exponential] with its default multiplier 1 and base 2:
    the wait after attempt [n] (counted from 1) is
    [max(max(0, min), min(1 * 2 ** (n - 1), max))]. *)
Definition wait_exponential (p : retry_policy) (attempt_number : nat) : Z :=
  Z.max (Z.max 0 (wait_min p))
        (Z.min (1 * 2 ^ (Z.of_nat attempt_number - 1)) (wait_max p)).

(** What a retried call did: its outcome, how many attempts it made, and
    the waits between them, in order. *)
Record retry_run (A : Type) : Type := {
  outcome : result A;
  attempts : nat;
  sleeps : list Z
}.
Arguments outcome {A} _.
Arguments attempts {A} _.
Arguments sleeps {A} _.

Section Retry.
Context {A : Type}.
Variable p : retry_policy.
(** [f n] is what the [n]-th attempt does. *)
Variable f : nat -> result A.

(** tenacity's loop: call; on an exception stop when the attempt number
    has reached the limit (re-raising the last exception under
    [reraise=True], raising [RetryError] otherwise), else sleep and call
    again.  [remaining] is the number of attempts still allowed after this
    one. *)
Fixpoint retry_from (remaining attempt_number : nat) : retry_run A :=
  match f attempt_number with
  | Ok a => {| outcome := Ok a; attempts := attempt_number; sleeps := [] |}
  | Err e =>
      match remaining with
      | O =>
          {| outcome := if reraise p then Err e else Err RetryError;
             attempts := attempt_number;
             sleeps := [] |}
      | S remaining' =>
          let run := retry_from remaining' (S attempt_number) in
          {| outcome := outcome run;
             attempts := attempts run;
             sleeps := wait_exponential p attempt_number :: sleeps run |}
      end
  end.

Definition retry : retry_run A := retry_from (Nat.pred (stop_attempts p)) 1.
End Retry.

(** The routing service: its reply to the request a task sends at a given
    attempt.  Tasks are numbered by shortlist position from 0, attempts from
    1. *)
Definition routing_service : Type := nat -> nat -> ors_request -> http_reply.

Section Resolver.
Variable P : platform.
Variable ors : routing_service.

(** The decorated [get_distance_km], run as task number [idx]. *)
Definition get_distance_km (idx : nat) (lat1 lon1 lat2 lon2 : float)
  : retry_run float :=
  let params := {| start_lon := lon1; start_lat := lat1;
                   end_lon := lon2; end_lat := lat2 |} in
  retry get_distance_km_policy (fun n => attempt P (ors idx n params)).
End Resolver.

(* ================================================================== *)
(** * The database *)
(* ================================================================== *)

(** Rows of [public.customers], [public.technicians] (whose [is_active]
    may be NULL) and [public.assignments].  A timestamp is a number of
    microseconds. *)
Record customer_row : Type := {
  customerid : Z;
  cust_latitude : float;
  cust_longitude : float
}.

Record technician_row : Type := {
  technicianid : Z;
  tech_latitude : float;
  tech_longitude : float;
  is_active : option bool
}.

Record assignment_row : Type := {
  row_id : Z;
  row_cust_id : Z;
  row_tech_id : Z;
  row_distance_km : float;
  row_assigned_at : Z
}.

(** The three tables, the next value of the sequence behind
    [assignments.id], and the server clock that [now()] reads. *)
Record database : Type := {
  customers : list customer_row;
  technicians : list technician_row;
  assignments : list assignment_row;
  assignments_id_seq : Z;
  clock : Z
}.

(** The values of PostgreSQL's [integer], the type of the three [SERIAL]
    columns and of the arguments compared with them. *)
Definition int4 (z : Z) : bool := (-2147483648 <=? z) && (z <=? 2147483647).

(** [conn.fetchrow("SELECT ... FROM public.customers WHERE customerid = $1",
    cust_id)]: the driver encodes the argument as an [integer] and raises
    [DataError] when it does not fit, before the query runs; otherwise the
    row with this identifier, or [None]. *)
Definition fetch_customer (db : database) (cust_id : Z) : result (option customer_row) :=
  if int4 cust_id then Ok (find (fun c => customerid c =? cust_id) (customers db))
  else Err DataError.

Definition active (t : technician_row) : bool :=
  match is_active t with Some true => true | _ => false end.

(** [SELECT ... FROM public.technicians WHERE is_active = TRUE]. *)
Definition fetch_active_technicians (db : database) : list technician_row :=
  filter active (technicians db).

(** [INSERT INTO public.assignments (cust_id, tech_id, distance_km) ...
    RETURNING id, assigned_at]: [id] is the next value of the sequence,
    which has none left after 2147483647; [assigned_at] is [now()]; the two
    foreign keys are checked. *)
Definition insert_assignment (db : database) (cust_id tech_id : Z) (distance_km : float)
  : result (assignment_row * database) :=
  if negb (assignments_id_seq db <=? 2147483647) then Err SequenceGeneratorLimitExceededError
  else if existsb (fun c => customerid c =? cust_id) (customers db)
          && existsb (fun t => technicianid t =? tech_id) (technicians db)
  then
    let row := {| row_id := assignments_id_seq db;
                  row_cust_id := cust_id;
                  row_tech_id := tech_id;
                  row_distance_km := distance_km;
                  row_assigned_at := clock db |} in
    Ok (row, {| customers := customers db;
                technicians := technicians db;
                assignments := assignments db ++ [row];
                assignments_id_seq := assignments_id_seq db + 1;
                clock := clock db |})
  else Err ForeignKeyViolationError.

(** Descending insertion on [assigned_at], for [ORDER BY assigned_at DESC]. *)
Fixpoint insert_desc (x : assignment_row) (l : list assignment_row) : list assignment_row :=
  match l with
  | [] => [x]
  | y :: l' =>
      if row_assigned_at x <? row_assigned_at y then y :: insert_desc x l'
      else x :: y :: l'
  end.

Fixpoint order_by_assigned_at_desc (l : list assignment_row) : list assignment_row :=
  match l with
  | [] => []
  | x :: l' => insert_desc x (order_by_assigned_at_desc l')
  end.

(** [SELECT id, cust_id, tech_id, distance_km, assigned_at FROM
    public.assignments ORDER BY assigned_at DESC]. *)
Definition fetch_assignments (db : database) : list assignment_row :=
  order_by_assigned_at_desc (assignments db).

(* ================================================================== *)
(** * The endpoints *)
(* ================================================================== *)

Record AssignmentModel : Type := {
  id : option Z;
  cust_id : Z;
  tech_id : Z;
  distance_km : float;
  assigned_at : Z
}.

(** [AssignmentModel(id=r["id"], cust_id=r["cust_id"], ...)] of a row. *)
Definition model_of_row (r : assignment_row) : AssignmentModel :=
  {| id := Some (row_id r);
     cust_id := row_cust_id r;
     tech_id := row_tech_id r;
     distance_km := row_distance_km r;
     assigned_at := row_assigned_at r |}.

(** What an endpoint does for the caller: return a value, raise an
    [HTTPException], or let another exception escape. *)
Inductive response (A : Type) : Type :=
| Returned (a : A)
| HTTPException (status_code : Z) (detail : string)
| Unhandled (e : exn).
Arguments Returned {A} a.
Arguments HTTPException {A} status_code detail.
Arguments Unhandled {A} e.

(** [str(n)] for an integer. *)
Definition str (n : Z) : string := NilZero.string_of_int (Z.to_int n).

(** The three conditions [dispatch_one] raises, under the names the design
    gives them. *)
Definition CustomerNotFound {A : Type} (cust_id : Z) : response A :=
  HTTPException 404 ("Customer " ++ str cust_id ++ " not found").
Definition NoTechniciansAvailable {A : Type} : response A :=
  HTTPException 503 "No technicians available".
Definition NoResolvableTechnician {A : Type} : response A :=
  HTTPException 503 "Unable to compute driving distances at this time".

(** A shortlist entry: the tuple [(est, tech_id, tlat, tlon)]. *)
Record candidate : Type := {
  est : float;
  cand_tech_id : Z;
  tlat : float;
  tlon : float
}.

(** [list.sort(key=...)]: a stable sort that compares keys with [<] only;
    here by insertion.  On keys that [<] orders totally -- floats with no
    NaN among them -- every stable sort returns this list.  With a NaN
    among the keys the result of [list.sort] depends on the comparisons it
    makes; the two still agree on a list in which no key is below the one
    before it, which both return as it is. *)
Section Sort.
Context {A : Type}.
Variable key : A -> float.

Fixpoint insert_by_key (x : A) (l : list A) : list A :=
  match l with
  | [] => [x]
  | y :: l' =>
      if flt (key y) (key x) then y :: insert_by_key x l'
      else x :: y :: l'
  end.

Fixpoint sort_by_key (l : list A) : list A :=
  match l with
  | [] => []
  | x :: l' => insert_by_key x (sort_by_key l')
  end.
End Sort.

Definition enumerate {A : Type} (l : list A) : list (nat * A) :=
  combine (seq 0 (List.length l)) l.

(** One request that was sent to the routing service. *)
Record ors_call : Type := {
  call_task : nat;
  call_attempt : nat;
  call_params : ors_request
}.

Definition TOP_K : nat := 5.

(** What a call of an endpoint did: its response, the database it leaves,
    and the requests it sent to the routing service. *)
Record run (A : Type) : Type := {
  resp : response A;
  db_after : database;
  ors_log : list ors_call
}.
Arguments resp {A} _.
Arguments db_after {A} _.
Arguments ors_log {A} _.

Section Dispatch.
Variable P : platform.
Variable ors : routing_service.

(** Lines 130-134: one candidate per technician row, in row order. *)
Fixpoint build_candidates (cust_lat cust_lon : float) (tech_rows : list technician_row)
  : result (list candidate) :=
  match tech_rows with
  | [] => Ok []
  | r :: rest =>
      e <- haversine_km P cust_lat cust_lon (tech_latitude r) (tech_longitude r) ;;
      cs <- build_candidates cust_lat cust_lon rest ;;
      Ok ({| est := e; cand_tech_id := technicianid r;
             tlat := tech_latitude r; tlon := tech_longitude r |} :: cs)
  end.

(** Lines 129-136: the shortlist. *)
Definition make_shortlist (cust_lat cust_lon : float) (tech_rows : list technician_row)
  : result (list candidate) :=
  candidates <- build_candidates cust_lat cust_lon tech_rows ;;
  Ok (firstn TOP_K (sort_by_key est candidates)).

(** Line 139, and line 140 which waits for all of them: one task per
    shortlist entry. *)
Definition run_tasks (cust_lat cust_lon : float) (shortlist : list candidate)
  : list (retry_run float) :=
  map (fun '(idx, c) => get_distance_km P ors idx cust_lat cust_lon (tlat c) (tlon c))
      (enumerate shortlist).

(** The requests task [idx] sent: one per attempt. *)
Definition calls_of_task (cust_lat cust_lon : float) (idx : nat) (c : candidate)
  : list ors_call :=
  let params := {| start_lon := cust_lon; start_lat := cust_lat;
                   end_lon := tlon c; end_lat := tlat c |} in
  map (fun n => {| call_task := idx; call_attempt := n; call_params := params |})
      (seq 1 (attempts (get_distance_km P ors idx cust_lat cust_lon (tlat c) (tlon c)))).

Definition calls_of_tasks (cust_lat cust_lon : float) (shortlist : list candidate)
  : list ors_call :=
  flat_map (fun '(idx, c) => calls_of_task cust_lat cust_lon idx c) (enumerate shortlist).

(** Lines 144-151: the body of the loop, on [(best_id, best_dist)].
    [tasks] has one entry per shortlist entry, so [shortlist[idx]] exists. *)
Definition pick_step (shortlist : list candidate) (best : option Z * float)
           (it : nat * result float) : option Z * float :=
  let '(idx, fut) := it in
  match nth_error shortlist idx with
  | None => best
  | Some c =>
      match fut with
      | Err _ => best
      | Ok d => if flt d (snd best) then (Some (cand_tech_id c), d) else best
      end
  end.

(** Lines 141-151. *)
Definition pick_best (shortlist : list candidate) (tasks : list (result float))
  : option Z * float :=
  fold_left (pick_step shortlist) (enumerate tasks) (None, inf).

(** [POST /dispatch/{cust_id}]. *)
Definition dispatch_one (db : database) (cust_id : Z) : run AssignmentModel :=
  match fetch_customer db cust_id with
  | Err e => {| resp := Unhandled e; db_after := db; ors_log := [] |}
  | Ok None => {| resp := CustomerNotFound cust_id; db_after := db; ors_log := [] |}
  | Ok (Some customer) =>
      let cust_lat := cust_latitude customer in
      let cust_lon := cust_longitude customer in
      match fetch_active_technicians db with
      | [] => {| resp := NoTechniciansAvailable; db_after := db; ors_log := [] |}
      | tech_rows =>
          match make_shortlist cust_lat cust_lon tech_rows with
          | Err e => {| resp := Unhandled e; db_after := db; ors_log := [] |}
          | Ok shortlist =>
              let tasks := run_tasks cust_lat cust_lon shortlist in
              let log := calls_of_tasks cust_lat cust_lon shortlist in
              match pick_best shortlist (map outcome tasks) with
              | (None, _) =>
                  {| resp := NoResolvableTechnician; db_after := db; ors_log := log |}
              | (Some best_id, best_dist) =>
                  match insert_assignment db cust_id best_id best_dist with
                  | Err e =>
                      {| resp := Unhandled e; db_after := db; ors_log := log |}
                  | Ok (row, db') =>
                      {| resp := Returned {| id := Some (row_id row);
                                             cust_id := cust_id;
                                             tech_id := best_id;
                                             distance_km := best_dist;
                                             assigned_at := row_assigned_at row |};
                         db_after := db';
                         ors_log := log |}
                  end
              end
          end
      end
  end.
End Dispatch.

(** [GET /assignments]. *)
Definition list_assignments (db : database) : run (list AssignmentModel) :=
  let rows := fetch_assignments db in
  {| resp := Returned (map model_of_row rows);
     db_after := db;
     ors_log := [] |}.

(* ================================================================== *)
(** * Predicates used in the statements *)
(* ================================================================== *)

(** [best] is what the decision loop must hold after the first [n]
    outcomes: nothing while no outcome below [inf] has been seen; otherwise
    the technician at a position [i] whose outcome [d] is below [inf], at
    most every outcome seen that is not a NaN, and strictly below those
    before position [i]. *)
Definition best_after (shortlist : list candidate) (tasks : list (result float))
           (n : nat) (best : option Z * float) : Prop :=
  (best = (None, inf) /\
   forall j d, (j < n)%nat -> nth_error tasks j = Some (Ok d) -> flt d inf = false)
  \/
  (exists i c d,
      (i < n)%nat /\
    best = (Some (cand_tech_id c), d) /\
    nth_error shortlist i = Some c /\
    nth_error tasks i = Some (Ok d) /\
    flt d inf = true /\
    forall j d', (j < n)%nat -> nth_error tasks j = Some (Ok d') ->
                 is_nan d' = false ->
                 fle d d' = true /\ ((j < i)%nat -> flt d d' = true)).

(** The selection the design asks of the decision loop, with no
    restriction on the distances: the technician at some position [i] is
    selected with the distance [d] its task returned, [d] is at most every
    returned distance, and strictly below those returned before position
    [i]. *)
Definition minimum_selected (shortlist : list candidate) (tasks : list (result float))
           (best : option Z * float) : Prop :=
  exists i c d,
    best = (Some (cand_tech_id c), d) /\
    nth_error shortlist i = Some c /\
    nth_error tasks i = Some (Ok d) /\
    forall j d', nth_error tasks j = Some (Ok d') ->
               fle d d' = true /\ ((j < i)%nat -> flt d d' = true).


(** A candidate stands for a technician row, seen from a target. *)
Definition candidate_of (P : platform) (cust_lat cust_lon : float)
           (r : technician_row) (c : candidate) : Prop :=
  cand_tech_id c = technicianid r /\
  tlat c = tech_latitude r /\
  tlon c = tech_longitude r /\
  haversine_km P cust_lat cust_lon (tlat c) (tlon c) = Ok (est c).


(** The row a successful [dispatch_one] inserts. *)
Definition inserted_row (db : database) (cust_id best_id : Z) (best_dist : float)
  : assignment_row :=
  {| row_id := assignments_id_seq db;
     row_cust_id := cust_id;
     row_tech_id := best_id;
     row_distance_km := best_dist;
     row_assigned_at := clock db |}.

(** The distance field the design describes: [distance] under
    [properties.summary] of the first element of a non-empty [features]
    array. *)
Definition distance_field (data : json) : option json :=
  match data with
  | JObj fields =>
      match assoc "features" fields with
      | Some (JArr (JObj feature :: _)) =>
          match assoc "properties" feature with
          | Some (JObj properties) =>
              match assoc "summary" properties with
              | Some (JObj summary) => assoc "distance" summary
              | _ => None
              end
          | _ => None
          end
      | _ => None
      end
  | _ => None
  end.

(** The [features] array of a body is empty or absent. *)
Definition no_features (data : json) : bool :=
  match data with
  | JObj fields =>
      match assoc "features" fields with
      | None | Some (JArr []) => true
      | _ => false
      end
  | _ => false
  end.

(** A JSON number, and the float it converts to when it has one. *)
Definition is_number (x : json) : bool :=
  match x with JInt _ | JFloat _ => true | _ => false end.

Definition number_to_float (x : json) : option float :=
  match x with
  | JFloat f => Some f
  | JInt z => match float_of_int z with Ok f => Some f | Err _ => None end
  | _ => None
  end.

(** No distance the routing service reports is negative: whenever a body
    it sends has a distance field that [float()] converts, the float is not
    below zero.  A NaN is not below zero. *)
Definition service_distances_nonneg (P : platform) (ors : routing_service) : Prop :=
  forall idx n req data x m,
    ors idx n req = Reply false (Some data) ->
    distance_field data = Some x ->
    py_float P x = Ok m ->
    flt m zero = false.

(** Most recent first. *)
Definition newer_or_same (r1 r2 : assignment_row) : Prop :=
  row_assigned_at r2 <= row_assigned_at r1.

(* ================================================================== *)
(** * Sample data *)
(* ================================================================== *)

Definition domain_error : exn := ValueError "math domain error".

(** A platform to run examples on.  The trigonometric functions are
    replaced by their first-order approximations at 0 ([sin x ~ x],
    [cos x ~ 1], [asin x ~ x]), which are exact at 0, with the domain
    errors of the [math] module; the square root is the IEEE one; [**] is
    only ever called with exponent 2 and multiplies. *)
Definition small_angle_platform : platform := {|
  math_sin := fun x =>
    match x with S754_infinity _ => Err domain_error | _ => Ok x end;
  math_cos := fun x =>
    match x with
    | S754_infinity _ => Err domain_error
    | S754_nan => Ok nan
    | _ => Ok one
    end;
  math_asin := fun x =>
    if flt one (SFabs x) then Err domain_error else Ok x;
  math_sqrt := fun x =>
    if flt x zero then Err domain_error else Ok (fsqrt x);
  float_pow := fun x _ => Ok (fmul x x);
  float_of_str := fun _ => None
|}.

(** The body of a routing response whose first feature carries [distance]
    under [properties.summary]. *)
Definition ors_body (distance : json) : json :=
  JObj [("type"%string, JStr "FeatureCollection");
        ("features"%string,
       JArr [JObj [("properties"%string,
                    JObj [("summary"%string,
                           JObj [("distance"%string, distance);
                                 ("duration"%string, JFloat zero)])])]])].

Definition ors_ok (distance : json) : http_reply := Reply false (Some (ors_body distance)).

(** A routing service that gives every request the same reply. *)
Definition ors_always (r : http_reply) : routing_service := fun _ _ _ => r.

(** One customer and one active technician, both at (0, 0). *)
Definition db_one_technician : database :=
  {| customers := [{| customerid := 1; cust_latitude := zero; cust_longitude := zero |}];
     technicians := [{| technicianid := 7; tech_latitude := zero; tech_longitude := zero;
                        is_active := Some true |}];
     assignments := [];
     assignments_id_seq := 1;
     clock := 1000 |}.

(** A shortlist of one, and a shortlist of three with the outcomes of its
    tasks: 5 km, a failure, 3 km. *)
Definition one_candidate : list candidate :=
  [{| est := zero; cand_tech_id := 7; tlat := zero; tlon := zero |}].

Definition three_candidates : list candidate :=
  [{| est := zero; cand_tech_id := 11; tlat := zero; tlon := zero |};
   {| est := one; cand_tech_id := 12; tlat := zero; tlon := one |};
   {| est := two; cand_tech_id := 13; tlat := zero; tlon := two |}].

Definition three_outcomes : list (result float) :=
  [Ok (of_Z 5); Err TransportError; Ok (of_Z 3)].

(** Six active technicians along the equator, at longitudes 3, 1, 5, 0, 2
    and 4 degrees. *)
Definition technician_at (n lon : Z) : technician_row :=
  {| technicianid := n; tech_latitude := zero; tech_longitude := of_Z lon;
     is_active := Some true |}.

Definition six_technicians : list technician_row :=
  [technician_at 21 3; technician_at 22 1; technician_at 23 5;
   technician_at 24 0; technician_at 25 2; technician_at 26 4].

(** Three stored assignments, the second being the most recent. *)
Definition db_three_assignments : database :=
  {| customers := customers db_one_technician;
     technicians := technicians db_one_technician;
     assignments :=
       [{| row_id := 1; row_cust_id := 1; row_tech_id := 7;
           row_distance_km := one; row_assigned_at := 1000 |};
        {| row_id := 2; row_cust_id := 1; row_tech_id := 7;
           row_distance_km := two; row_assigned_at := 3000 |};
        {| row_id := 3; row_cust_id := 1; row_tech_id := 7;
           row_distance_km := thousand; row_assigned_at := 2000 |}];
     assignments_id_seq := 4;
     clock := 4000 |}.

(** The same customer with no technician to send: one is inactive, the
    other has no [is_active] value. *)
Definition db_no_active_technician : database :=
  {| customers := customers db_one_technician;
     technicians := [{| technicianid := 8; tech_latitude := zero; tech_longitude := one;
                        is_active := Some false |};
                     {| technicianid := 9; tech_latitude := zero; tech_longitude := two;
                        is_active := None |}];
     assignments := [];
     assignments_id_seq := 1;
     clock := 1000 |}.

(** The customer at (0, 0) and its only technician at (0, 1). *)
Definition db_technician_east : database :=
  {| customers := customers db_one_technician;
     technicians := [{| technicianid := 7; tech_latitude := zero; tech_longitude := one;
                        is_active := Some true |}];
     assignments := [];
     assignments_id_seq := 1;
     clock := 1000 |}.

(** The customer at (0, 0) and the six technicians of the equator. *)
Definition db_six_technicians : database :=
  {| customers := customers db_one_technician;
     technicians := six_technicians;
     assignments := [];
     assignments_id_seq := 1;
     clock := 1000 |}.

(** A response with a good status and an empty [features] array. *)
Definition ors_no_route : http_reply :=
  Reply false (Some (JObj [("features"%string, JArr [])])).

(* ================================================================== *)
(** * The service over time *)
(* ================================================================== *)

(** The server clock moves to [t]. *)
Definition set_clock (db : database) (t : Z) : database :=
  {| customers := customers db;
     technicians := technicians db;
     assignments := assignments db;
     assignments_id_seq := assignments_id_seq db;
     clock := t |}.

(** One step of the service: a call of [dispatch_one] against some
    behaviour of the routing service, a call of [list_assignments], or the
    clock moving forward. *)
Inductive step (P : platform) : database -> database -> Prop :=
| step_dispatch (ors : routing_service) (db : database) (cust_id : Z) :
    step P db (db_after (dispatch_one P ors db cust_id))
| step_list (db : database) :
    step P db (db_after (list_assignments db))
| step_clock (db : database) (t : Z) :
    clock db <= t -> step P db (set_clock db t).

Inductive reachable (P : platform) (db0 : database) : database -> Prop :=
| reach_start : reachable P db0 db0
| reach_step (db db' : database) :
    reachable P db0 db -> step P db db' -> reachable P db0 db'.

(** Identifiers grow along the table and stay below the sequence. *)
Definition ids_fresh (db : database) : Prop :=
  StronglySorted (fun r1 r2 => row_id r1 < row_id r2) (assignments db) /\
  Forall (fun r => row_id r < assignments_id_seq db) (assignments db).

(** Timestamps do not decrease along the table and are not in the
    future. *)
Definition times_ordered (db : database) : Prop :=
  StronglySorted (fun r1 r2 => row_assigned_at r1 <= row_assigned_at r2) (assignments db) /\
  Forall (fun r => row_assigned_at r <= clock db) (assignments db).

(** Every assignment refers to a customer row and a technician row. *)
Definition references_hold (db : database) : Prop :=
  Forall (fun r =>
            (exists c, In c (customers db) /\ customerid c = row_cust_id r) /\
            (exists t, In t (technicians db) /\ technicianid t = row_tech_id r))
         (assignments db).

(** No later element has a key strictly below an earlier one. *)
Definition no_descent {A : Type} (key : A -> float) (l : list A) : Prop :=
  StronglySorted (fun a b => flt (key b) (key a) = false) l.

(** Two calls for customer 1 with the clock moved between them. *)
Definition db_after_two_calls : database :=
  let ors := ors_always (ors_ok (JFloat (of_Z 111000))) in
  let db1 := db_after (dispatch_one small_angle_platform ors db_one_technician 1) in
  db_after (dispatch_one small_angle_platform ors (set_clock db1 2000) 1).

(* ================================================================== *)
(** * Start-up and health: configuration, schema, pool *)
(* ================================================================== *)

(** The process environment, and [os.getenv(key, default)]. *)
Definition environ : Type := list (string * string).

Fixpoint environ_get (env : environ) (key : string) : option string :=
  match env with
  | [] => None
  | (k, v) :: rest => if String.eqb key k then Some v else environ_get rest key
  end.

Definition getenv (env : environ) (key default : string) : string :=
  match environ_get env key with
  | Some v => v
  | None => default
  end.

(** Lines 21-28: the module's configuration. *)
Record config : Type := {
  DB_HOST : string;
  DB_PORT : Z;
  DB_NAME : string;
  DB_USER : string;
  DB_PASSWORD : string;
  ORS_API_KEY : string;
  ORS_BASE_URL : string
}.

(** What importing the module can raise. *)
Inductive import_error : Type :=
| PortValueError                   (* [int()] on the port *)
| RuntimeError (msg : string).

(** A string is false when it is empty or absent. *)
Definition str_truthy (s : option string) : bool :=
  match s with
  | Some (String _ _) => true
  | _ => false
  end.

Section Config.
(** [int(s)] on a string; [None] is its [ValueError]. *)
Variable py_int : string -> option Z.

(** Lines 21-33, in order: the port is parsed before the two checks. *)
Definition load_config (env : environ) : config + import_error :=
  let host := getenv env "DB_HOST" "localhost" in
  match py_int (getenv env "DB_PORT" "5432") with
  | None => inr PortValueError
  | Some port =>
      let name := getenv env "DB_NAME" "technician_short" in
      let user := getenv env "DB_USER" "postgres" in
      let password := environ_get env "DB_PASSWORD" in
      let api_key := environ_get env "OPENROUTE_API_KEY" in
      let base_url :=
        getenv env "OPENROUTE_BASE_URL"
               "https://api.openrouteservice.org/v2/directions/driving-car" in
      if negb (str_truthy password) then inr (RuntimeError "DB_PASSWORD is required")
      else if negb (str_truthy api_key) then inr (RuntimeError "OPENROUTE_API_KEY is required")
      else inl {| DB_HOST := host; DB_PORT := port; DB_NAME := name; DB_USER := user;
                  DB_PASSWORD := getenv env "DB_PASSWORD" "";
                  ORS_API_KEY := getenv env "OPENROUTE_API_KEY" "";
                  ORS_BASE_URL := base_url |}
  end.
End Config.

(** The schema of the database server: each of the three tables exists or
    not; [assignments] comes with the sequence of its [id]. *)
Record catalog : Type := {
  tbl_customers : option (list customer_row);
  tbl_technicians : option (list technician_row);
  tbl_assignments : option (list assignment_row * Z)
}.

(** [CREATE TABLE IF NOT EXISTS]: an existing table is left alone. *)
Definition create_table_if_not_exists {A : Type} (table : option A) (empty : A)
  : option A :=
  match table with
  | Some t => Some t
  | None => Some empty
  end.

(** [init_db]: the three statements, in order. *)
Definition init_db (c : catalog) : catalog :=
  let c1 := {| tbl_customers := create_table_if_not_exists (tbl_customers c) [];
               tbl_technicians := tbl_technicians c;
               tbl_assignments := tbl_assignments c |} in
  let c2 := {| tbl_customers := tbl_customers c1;
               tbl_technicians := create_table_if_not_exists (tbl_technicians c1) [];
               tbl_assignments := tbl_assignments c1 |} in
  {| tbl_customers := tbl_customers c2;
     tbl_technicians := tbl_technicians c2;
     tbl_assignments := create_table_if_not_exists (tbl_assignments c2) ([], 1) |}.

(** The database the endpoints see, when the three tables exist. *)
Definition database_of (c : catalog) (now : Z) : option database :=
  match tbl_customers c, tbl_technicians c, tbl_assignments c with
  | Some cs, Some ts, Some (rows, next) =>
      Some {| customers := cs; technicians := ts; assignments := rows;
              assignments_id_seq := next; clock := now |}
  | _, _, _ => None
  end.

(** [app.state.db_pool]: unset, or a pool that is open or closed. *)
Inductive pool_state : Type := PoolOpen | PoolClosed.

Definition app_state : Type := option pool_state.

(** [on_shutdown]: closes the pool when there is one. *)
Definition on_shutdown (st : app_state) : app_state :=
  match st with
  | Some _ => Some PoolClosed
  | None => None
  end.

(** [GET /healthz].  [server_up] says whether [SELECT 1] on an open pool
    raises nothing; acquiring from a closed pool raises, and every
    exception is caught. *)
Definition healthz (st : app_state) (server_up : bool) : json :=
  let db_ok :=
    match st with
    | Some PoolOpen => server_up
    | Some PoolClosed => false
    | None => false
    end in
  JObj [("status"%string, JStr (if db_ok then "ok" else "db_unavailable"))].

(** The customer at (0, 0), a technician at (0, 1) and one whose latitude
    is stored as [Infinity]. *)
Definition db_technician_at_infinity : database :=
  {| customers := customers db_one_technician;
     technicians := [technician_at 41 1;
                     {| technicianid := 42; tech_latitude := inf; tech_longitude := zero;
                        is_active := Some true |}];
     assignments := [];
     assignments_id_seq := 1;
     clock := 1000 |}.


(** An [int()] that knows the default port and nothing else. *)
Definition int_of_default_port (s : string) : option Z :=
  if String.eqb s "5432" then Some 5432 else None.

(* ================================================================== *)
(** * What the geometric estimator asks of the platform *)
(* ================================================================== *)

(** [math.sin(x) ** 2], as both squares of the formula are computed. *)
Definition sin_squared (P : platform) (x : float) : result float :=
  s <- math_sin P x ;; float_pow P s two.




(** The square root is never below zero, and the arc sine of a number that
    is not below zero is not below zero either.  A NaN is not below
    zero. *)
Definition sqrt_not_negative (P : platform) : Prop :=
  forall a r, math_sqrt P a = Ok r -> flt r zero = false.

Definition asin_keeps_sign (P : platform) : Prop :=
  forall r h, math_asin P r = Ok h -> flt r zero = false -> flt h zero = false.

(* ================================================================== *)
(** * The order of Python floats *)
(* ================================================================== *)


Lemma compare_cont_Eq (m n : positive) : Pos.compare_cont Eq m n = Pos.compare m n.
Proof. reflexivity. Qed.

Ltac float_cases :=
    repeat match goal with
           | x : float |- _ => destruct x as [[|]|[|]| |[|] ? ?]
           | x : spec_float |- _ => destruct x as [[|]|[|]| |[|] ? ?]
           end;
    cbn [is_nan] in *; try discriminate.

Ltac compare_cases :=
    repeat match goal with
           | |- context [Z.compare ?a ?b] => destruct (Z.compare_spec a b)
           | |- context [Pos.compare_cont Eq ?a ?b] =>
               rewrite (compare_cont_Eq a b); destruct (Pos.compare_spec a b)
           end.

Lemma flt_key (a b : float) :
    is_nan a = false -> is_nan b = false ->
    (flt a b = true <-> key_lt (fkey a) (fkey b)).
Proof.
    intros Ha Hb. float_cases;
      unfold flt, SFltb, SFcompare, key_lt, fkey;
      compare_cases; cbn [CompOpp];
      split; intros ?; try discriminate; try reflexivity; try lia.
Qed.

Lemma fle_key (a b : float) :
    is_nan a = false -> is_nan b = false ->
    (fle a b = true <-> key_le (fkey a) (fkey b)).
Proof.
    intros Ha Hb. float_cases;
      unfold fle, SFleb, SFcompare, key_le, fkey;
      compare_cases; cbn [CompOpp];
      split; intros ?; try discriminate; try reflexivity; try lia.
Qed.

Lemma flt_not_nan_l (a b : float) : flt a b = true -> is_nan a = false.
Proof. destruct a; auto. Qed.

Lemma flt_not_nan_r (a b : float) : flt a b = true -> is_nan b = false.
Proof. destruct a, b; auto. Qed.

Lemma fle_not_nan_l (a b : float) : fle a b = true -> is_nan a = false.
Proof. destruct a; auto. Qed.

Lemma fle_not_nan_r (a b : float) : fle a b = true -> is_nan b = false.
Proof. destruct a, b; auto. Qed.

Ltac to_keys :=
    repeat match goal with
           | H : flt ?a ?b = true |- _ =>
               pose proof (flt_not_nan_l _ _ H); pose proof (flt_not_nan_r _ _ H);
               apply flt_key in H; [| assumption | assumption]
           | H : fle ?a ?b = true |- _ =>
               pose proof (fle_not_nan_l _ _ H); pose proof (fle_not_nan_r _ _ H);
               apply fle_key in H; [| assumption | assumption]
           end.

Ltac keys_lia :=
    unfold key_lt, key_le in *;
    repeat match goal with
           | |- context [fkey ?a] => destruct (fkey a) as [[? ?] ?]
           | H : context [fkey ?a] |- _ => destruct (fkey a) as [[? ?] ?]
           end; lia.

Lemma flt_irrefl (a : float) : flt a a = false.
Proof.
    destruct (flt a a) eqn:E; [| reflexivity].
    to_keys. keys_lia.
Qed.

Lemma flt_trans (a b c : float) :
    flt a b = true -> flt b c = true -> flt a c = true.
Proof.
    intros Hab Hbc. to_keys. apply flt_key; try assumption. keys_lia.
Qed.

Lemma flt_fle_trans (a b c : float) :
    flt a b = true -> fle b c = true -> flt a c = true.
Proof.
    intros Hab Hbc. to_keys. apply flt_key; try assumption. keys_lia.
Qed.

Lemma fle_flt_trans (a b c : float) :
    fle a b = true -> flt b c = true -> flt a c = true.
Proof.
    intros Hab Hbc. to_keys. apply flt_key; try assumption. keys_lia.
Qed.


Lemma flt_fle (a b : float) : flt a b = true -> fle a b = true.
Proof.
    intros Hab. to_keys. apply fle_key; try assumption. keys_lia.
Qed.

Lemma fle_refl (a : float) : is_nan a = false -> fle a a = true.
Proof.
    intros Ha. apply fle_key; try assumption. keys_lia.
Qed.

(** On floats that are not NaN, [not (a < b)] is [b <= a]. *)
Lemma not_flt_fle (a b : float) :
    is_nan a = false -> is_nan b = false -> flt a b = false -> fle b a = true.
Proof.
    intros Ha Hb Hab. apply fle_key; try assumption.
    assert (H : ~ key_lt (fkey a) (fkey b)).
    { intros H. apply flt_key in H; try assumption. congruence. }
    keys_lia.
Qed.

Lemma fle_not_flt (a b : float) : fle a b = true -> flt b a = false.
Proof.
    intros Hab. destruct (flt b a) eqn:E; [| reflexivity].
    to_keys. keys_lia.
Qed.


(* ================================================================== *)
(** * Decision picker *)
(* ================================================================== *)

Lemma pick_step_best_after (shortlist : list candidate) (all : list (result float))
      (k : nat) (t : result float) (best : option Z * float) :
  (List.length all <= List.length shortlist)%nat ->
  nth_error all k = Some t ->
  best_after shortlist all k best ->
  best_after shortlist all (S k) (pick_step shortlist best (k, t)).
Proof.
  intros Hlen Hk Hinv.
  assert (Hklt : (k < List.length all)%nat).
  { apply nth_error_Some. congruence. }
  destruct (nth_error shortlist k) as [c|] eqn:Hc.
  2:{ apply nth_error_None in Hc. lia. }
  unfold pick_step. rewrite Hc.
  destruct t as [d|e].
  - (* the task returned [d] *)
    destruct Hinv as [[-> Hnone] | (i & c0 & d0 & Hi & -> & Hsl & Hti & Hd0 & Hmin)];
      cbn [snd]; destruct (flt d _) eqn:Hlt.
    + (* first outcome below [inf] *)
      right. exists k, c, d.
      split; [lia|]. split; [reflexivity|]. split; [assumption|].
      split; [assumption|]. split; [assumption|].
      intros j d' Hj Hjd Hnan.
      destruct (Nat.eq_dec j k) as [->|Hne].
      * rewrite Hk in Hjd. injection Hjd as <-.
        split; [now apply fle_refl | lia].
      * assert (Hd' : flt d d' = true).
        { eapply flt_fle_trans; [exact Hlt|].
          apply not_flt_fle; auto. eapply Hnone; [|exact Hjd]. lia. }
        split; [now apply flt_fle | auto].
    + left. split; auto. intros j d' Hj Hjd.
      destruct (Nat.eq_dec j k) as [->|Hne].
      * rewrite Hk in Hjd. injection Hjd as <-. exact Hlt.
      * eapply Hnone; [|exact Hjd]. lia.
    + (* a new strict minimum *)
      right. exists k, c, d.
      split; [lia|]. split; [reflexivity|]. split; [assumption|].
      split; [assumption|]. split; [eapply flt_trans; eauto|].
      intros j d' Hj Hjd Hnan.
      destruct (Nat.eq_dec j k) as [->|Hne].
      * rewrite Hk in Hjd. injection Hjd as <-.
        split; [now apply fle_refl | lia].
      * assert (Hd' : flt d d' = true).
        { eapply flt_fle_trans; [exact Hlt|].
          eapply Hmin; [|exact Hjd|exact Hnan]. lia. }
        split; [now apply flt_fle | auto].
    + (* not below the minimum so far *)
      right. exists i, c0, d0.
      split; [lia|]. split; [reflexivity|]. split; [assumption|].
      split; [assumption|]. split; [assumption|].
      intros j d' Hj Hjd Hnan.
      destruct (Nat.eq_dec j k) as [->|Hne].
      * rewrite Hk in Hjd. injection Hjd as <-.
        split; [|lia].
        apply not_flt_fle; auto. eapply flt_not_nan_l; eauto.
      * eapply Hmin; [|exact Hjd|exact Hnan]. lia.
  - (* the task raised: [continue] *)
    destruct Hinv as [[-> Hnone] | (i & c0 & d0 & Hi & -> & Hsl & Hti & Hd0 & Hmin)].
    + left. split; auto. intros j d' Hj Hjd.
      destruct (Nat.eq_dec j k) as [->|Hne]; [congruence|].
      eapply Hnone; [|exact Hjd]. lia.
    + right. exists i, c0, d0.
      split; [lia|]. split; [reflexivity|]. split; [assumption|].
      split; [assumption|]. split; [assumption|].
      intros j d' Hj Hjd Hnan.
      destruct (Nat.eq_dec j k) as [->|Hne]; [congruence|].
      eapply Hmin; [|exact Hjd|exact Hnan]. lia.
Qed.

Lemma pick_fold_best_after (shortlist : list candidate) (all : list (result float)) :
  (List.length all <= List.length shortlist)%nat ->
  forall (ts pre : list (result float)) (best : option Z * float),
    all = pre ++ ts ->
    best_after shortlist all (List.length pre) best ->
    best_after shortlist all (List.length all)
               (fold_left (pick_step shortlist)
                          (combine (seq (List.length pre) (List.length ts)) ts) best).
Proof.
  intros Hlen ts. induction ts as [|t ts IH]; intros pre best Hall Hinv.
  - cbn. subst all. rewrite app_nil_r in *. exact Hinv.
  - cbn [List.length seq combine fold_left].
    assert (Hk : nth_error all (List.length pre) = Some t).
    { subst all. rewrite nth_error_app2 by lia. now rewrite Nat.sub_diag. }
    specialize (IH (pre ++ [t]) (pick_step shortlist best (List.length pre, t))).
    rewrite length_app in IH. cbn [List.length] in IH.
    rewrite Nat.add_1_r in IH. apply IH.
    + subst all. now rewrite <- app_assoc.
    + apply pick_step_best_after; auto.
Qed.

Lemma pick_best_best_after (shortlist : list candidate) (tasks : list (result float)) :
  (List.length tasks <= List.length shortlist)%nat ->
  best_after shortlist tasks (List.length tasks) (pick_best shortlist tasks).
Proof.
  intros Hlen. unfold pick_best, enumerate.
  apply (pick_fold_best_after shortlist tasks Hlen tasks [] (None, inf)); auto.
  left. split; auto. cbn. intros; lia.
Qed.

(** C1, as amended.  When at least one task returned a distance below
    [inf] (so neither [inf] nor a NaN), the loop selects a technician: the
    one at a shortlist position [i] whose task returned [d], where [d] is
    below [inf], is at most every returned distance that is not a NaN, and
    is strictly below every such distance returned at an earlier position
    -- the minimum, the first one on ties. *)
Theorem pick_best_selects_minimum
        (shortlist : list candidate) (tasks : list (result float)) :
  List.length tasks = List.length shortlist ->
  (exists i d, nth_error tasks i = Some (Ok d) /\ flt d inf = true) ->
  exists i c d,
    pick_best shortlist tasks = (Some (cand_tech_id c), d) /\
    nth_error shortlist i = Some c /\
    nth_error tasks i = Some (Ok d) /\
    flt d inf = true /\
    forall j d', nth_error tasks j = Some (Ok d') -> is_nan d' = false ->
                 fle d d' = true /\ ((j < i)%nat -> flt d d' = true).
Proof.
  intros Hlen (i0 & d0 & Hi0 & Hd0).
  assert (Hle : (List.length tasks <= List.length shortlist)%nat) by lia.
  destruct (pick_best_best_after shortlist tasks Hle)
    as [[_ Hnone] | (i & c & d & Hi & Hbest & Hsl & Hti & Hd & Hmin)].
  - assert (Hlt : (i0 < List.length tasks)%nat).
    { apply nth_error_Some. congruence. }
    rewrite (Hnone i0 d0 Hlt Hi0) in Hd0. discriminate.
  - exists i, c, d. repeat (split; [assumption|]).
    intros j d' Hj Hnan. apply Hmin; auto.
    apply nth_error_Some. congruence.
Qed.

Lemma pick_best_selects_minimum_witness :
  List.length three_outcomes = List.length three_candidates /\
  (exists i d, nth_error three_outcomes i = Some (Ok d) /\ flt d inf = true) /\
  exists i c d,
    pick_best three_candidates three_outcomes = (Some (cand_tech_id c), d) /\
    nth_error three_candidates i = Some c /\
    nth_error three_outcomes i = Some (Ok d) /\
    flt d inf = true /\
    forall j d', nth_error three_outcomes j = Some (Ok d') -> is_nan d' = false ->
                 fle d d' = true /\ ((j < i)%nat -> flt d d' = true).
Proof.
  assert (H1 : List.length three_outcomes = List.length three_candidates)
    by reflexivity.
  assert (H2 : exists i d, nth_error three_outcomes i = Some (Ok d) /\ flt d inf = true).
  { exists 0%nat, (of_Z 5). split; reflexivity. }
  split; [exact H1|]. split; [exact H2|].
  exact (pick_best_selects_minimum three_candidates three_outcomes H1 H2).
Defined.

(** C1 as it is written fails: a task that returned [inf] (the service
    sent [1e999], which parses to [inf]) did resolve, and the loop selects
    nobody, so the call answers 503. *)
Lemma pick_best_inf_not_selected :
  let ors := ors_always (ors_ok (JFloat inf)) in
  let tasks := map outcome (run_tasks small_angle_platform ors zero zero one_candidate) in
  tasks = [Ok inf] /\
  make_shortlist small_angle_platform zero zero (fetch_active_technicians db_one_technician)
    = Ok one_candidate /\
  pick_best one_candidate tasks = (None, inf) /\
  ~ minimum_selected one_candidate tasks (pick_best one_candidate tasks) /\
  resp (dispatch_one small_angle_platform ors db_one_technician 1) = NoResolvableTechnician.
Proof.
  cbv zeta. repeat split; try reflexivity.
  intros (i & c & d & Hbest & _). vm_compute in Hbest. discriminate.
Qed.

(* ================================================================== *)
(** * Shortlist selector *)
(* ================================================================== *)

Section SortFacts.
Context {A : Type}.
Variable key : A -> float.

Let key_le (a b : A) : Prop := fle (key a) (key b) = true.

Lemma insert_by_key_perm (x : A) (l : list A) :
  Permutation (insert_by_key key x l) (x :: l).
Proof.
  induction l as [|y l IH]; cbn.
  - reflexivity.
  - destruct (flt (key y) (key x)).
    + rewrite IH. apply perm_swap.
    + reflexivity.
Qed.

Lemma sort_by_key_perm (l : list A) : Permutation (sort_by_key key l) l.
Proof.
  induction l as [|x l IH]; cbn.
  - reflexivity.
  - rewrite insert_by_key_perm. now constructor.
Qed.




End SortFacts.

Lemma In_firstn {A : Type} (n : nat) (l : list A) (x : A) :
  In x (firstn n l) -> In x l.
Proof.
  revert n. induction l as [|y l IH]; intros [|n]; cbn; try tauto.
  intros [->|H]; eauto.
Qed.






(* ================================================================== *)
(** * The dispatch call *)
(* ================================================================== *)

Lemma pick_fold_all_failed (shortlist : list candidate)
      (its : list (nat * result float)) (best : option Z * float) :
  Forall (fun it => is_ok (snd it) = false) its ->
  fold_left (pick_step shortlist) its best = best.
Proof.
  intros H. revert best. induction H as [|[idx fut] its Hfut _ IH]; intros best; cbn.
  - reflexivity.
  - rewrite IH. destruct (nth_error shortlist idx); [|reflexivity].
    destruct fut; [discriminate|reflexivity].
Qed.

Lemma pick_best_all_failed (shortlist : list candidate) (tasks : list (result float)) :
  Forall (fun t => is_ok t = false) tasks ->
  pick_best shortlist tasks = (None, inf).
Proof.
  intros H. unfold pick_best. apply pick_fold_all_failed.
  apply Forall_forall. intros [idx fut] Hin.
  unfold enumerate in Hin. apply in_combine_r in Hin.
  rewrite Forall_forall in H. now apply H.
Qed.

Lemma enumerate_length {A : Type} (l : list A) :
  List.length (enumerate l) = List.length l.
Proof.
  unfold enumerate. rewrite length_combine, length_seq. apply Nat.min_id.
Qed.

Lemma run_tasks_length (P : platform) (ors : routing_service)
      (cust_lat cust_lon : float) (shortlist : list candidate) :
  List.length (map outcome (run_tasks P ors cust_lat cust_lon shortlist))
  = List.length shortlist.
Proof.
  unfold run_tasks. now rewrite !length_map, enumerate_length.
Qed.

(** C3.  When the customer exists, the shortlist is built, and the
    resolution of every shortlisted candidate fails, the call raises
    [NoResolvableTechnician] (503) and leaves the database as it was. *)
Theorem dispatch_one_all_failed
        (P : platform) (ors : routing_service) (db : database) (cust_id : Z)
        (customer : customer_row) (shortlist : list candidate) :
  fetch_customer db cust_id = Ok (Some customer) ->
  fetch_active_technicians db <> [] ->
  make_shortlist P (cust_latitude customer) (cust_longitude customer)
                 (fetch_active_technicians db) = Ok shortlist ->
  Forall (fun task => is_ok (outcome task) = false)
         (run_tasks P ors (cust_latitude customer) (cust_longitude customer) shortlist) ->
  resp (dispatch_one P ors db cust_id) = NoResolvableTechnician /\
  db_after (dispatch_one P ors db cust_id) = db /\
  assignments (db_after (dispatch_one P ors db cust_id)) = assignments db.
Proof.
  intros Hcust Htech Hsl Hfail.
  assert (Hpick : pick_best shortlist
                    (map outcome (run_tasks P ors (cust_latitude customer)
                                            (cust_longitude customer) shortlist))
                  = (None, inf)).
  { apply pick_best_all_failed. apply Forall_map. exact Hfail. }
  unfold dispatch_one. rewrite Hcust.
  destruct (fetch_active_technicians db) as [|t rows] eqn:Hrows; [congruence|].
  rewrite Hsl, Hpick. cbn. auto.
Qed.

Lemma dispatch_one_all_failed_witness :
  let P := small_angle_platform in
  let ors := ors_always NetworkError in
  let db := db_one_technician in
  let customer := {| customerid := 1; cust_latitude := zero; cust_longitude := zero |} in
  fetch_customer db 1 = Ok (Some customer) /\
  fetch_active_technicians db <> [] /\
  make_shortlist P (cust_latitude customer) (cust_longitude customer)
                 (fetch_active_technicians db) = Ok one_candidate /\
  Forall (fun task => is_ok (outcome task) = false)
         (run_tasks P ors (cust_latitude customer) (cust_longitude customer)
                    one_candidate) /\
  resp (dispatch_one P ors db 1) = NoResolvableTechnician /\
  db_after (dispatch_one P ors db 1) = db /\
  assignments (db_after (dispatch_one P ors db 1)) = assignments db.
Proof.
  cbv zeta.
  assert (H1 : fetch_customer db_one_technician 1
               = Ok (Some {| customerid := 1; cust_latitude := zero; cust_longitude := zero |}))
    by reflexivity.
  assert (H2 : fetch_active_technicians db_one_technician <> []) by discriminate.
  assert (H3 : make_shortlist small_angle_platform zero zero
                 (fetch_active_technicians db_one_technician) = Ok one_candidate)
    by reflexivity.
  assert (H4 : Forall (fun task => is_ok (outcome task) = false)
                 (run_tasks small_angle_platform (ors_always NetworkError) zero zero
                            one_candidate))
    by (repeat constructor).
  split; [exact H1|]. split; [exact H2|]. split; [exact H3|]. split; [exact H4|].
  exact (dispatch_one_all_failed small_angle_platform (ors_always NetworkError)
           db_one_technician 1 _ one_candidate H1 H2 H3 H4).
Defined.

Lemma fetch_customer_found (db : database) (cust_id : Z) (customer : customer_row) :
  fetch_customer db cust_id = Ok (Some customer) ->
  int4 cust_id = true /\ In customer (customers db) /\ customerid customer = cust_id.
Proof.
  unfold fetch_customer. destruct (int4 cust_id); [|discriminate].
  intros H. injection H as H. apply find_some in H. destruct H as [Hin Heq].
  split; [reflexivity|]. split; [exact Hin|]. now apply Z.eqb_eq.
Qed.

Lemma fetch_customer_absent (db : database) (cust_id : Z) :
  int4 cust_id = true ->
  (forall c, In c (customers db) -> customerid c <> cust_id) ->
  fetch_customer db cust_id = Ok None.
Proof.
  intros Hrange Habsent. unfold fetch_customer. rewrite Hrange.
  destruct (find _ (customers db)) as [c|] eqn:Hfind; [|reflexivity].
  apply find_some in Hfind. destruct Hfind as [Hin Heq].
  apply Z.eqb_eq in Heq. destruct (Habsent c Hin Heq).
Qed.

(** C4, as amended.  For a customer identifier that is a value of the
    32-bit [integer] of the [customerid] column and has no row in
    [customers], the call raises [CustomerNotFound] (404), leaves the
    database as it was, and sends nothing to the routing service. *)
Theorem dispatch_one_customer_not_found
        (P : platform) (ors : routing_service) (db : database) (cust_id : Z) :
  int4 cust_id = true ->
  (forall c, In c (customers db) -> customerid c <> cust_id) ->
  resp (dispatch_one P ors db cust_id) = CustomerNotFound cust_id /\
  db_after (dispatch_one P ors db cust_id) = db /\
  ors_log (dispatch_one P ors db cust_id) = [].
Proof.
  intros Hrange Habsent. unfold dispatch_one.
  rewrite (fetch_customer_absent db cust_id Hrange Habsent). cbn. auto.
Qed.

Lemma dispatch_one_customer_not_found_witness :
  int4 2 = true /\
  (forall c, In c (customers db_one_technician) -> customerid c <> 2) /\
  resp (dispatch_one small_angle_platform (ors_always NetworkError) db_one_technician 2)
  = CustomerNotFound 2 /\
  db_after (dispatch_one small_angle_platform (ors_always NetworkError) db_one_technician 2)
  = db_one_technician /\
  ors_log (dispatch_one small_angle_platform (ors_always NetworkError) db_one_technician 2)
  = [].
Proof.
  assert (H1 : int4 2 = true) by reflexivity.
  assert (H2 : forall c, In c (customers db_one_technician) -> customerid c <> 2).
  { intros c [<-|[]]. discriminate. }
  split; [exact H1|]. split; [exact H2|].
  exact (dispatch_one_customer_not_found small_angle_platform (ors_always NetworkError)
           db_one_technician 2 H1 H2).
Defined.

(** C4 as it is written fails: 2147483648 has no customer record, and the
    call does not raise [CustomerNotFound]: the driver cannot encode the
    identifier as an [integer] and its [DataError] escapes. *)
Lemma dispatch_one_customer_id_out_of_range :
  (forall c, In c (customers db_one_technician) -> customerid c <> 2147483648) /\
  resp (dispatch_one small_angle_platform (ors_always NetworkError)
                     db_one_technician 2147483648) = Unhandled DataError /\
  resp (dispatch_one small_angle_platform (ors_always NetworkError)
                     db_one_technician 2147483648) <> CustomerNotFound 2147483648.
Proof.
  split; [|split].
  - intros c [<-|[]]. discriminate.
  - reflexivity.
  - discriminate.
Qed.

Lemma insert_assignment_inserted (db db' : database) (c t : Z) (d : float)
      (row : assignment_row) :
  insert_assignment db c t d = Ok (row, db') ->
  row = inserted_row db c t d /\
  assignments db' = assignments db ++ [row] /\
  customers db' = customers db /\
  technicians db' = technicians db /\
  assignments_id_seq db' = assignments_id_seq db + 1 /\
  clock db' = clock db.
Proof.
  unfold insert_assignment.
  destruct (negb _); [discriminate|]. destruct (_ && _); [|discriminate].
  intros H. injection H as <- <-. cbn. repeat split.
Qed.

Lemma nth_error_enumerate {A : Type} (l : list A) (i : nat) :
  nth_error (enumerate l) i = option_map (fun x => (i, x)) (nth_error l i).
Proof.
  unfold enumerate.
  assert (H : forall k, nth_error (combine (seq k (List.length l)) l) i
                        = option_map (fun x => ((k + i)%nat, x)) (nth_error l i)).
  { revert i. induction l as [|x l IH]; intros i k.
    - now destruct i.
    - destruct i as [|i]; cbn.
      + now rewrite Nat.add_0_r.
      + rewrite IH. now rewrite Nat.add_succ_r. }
  apply H.
Qed.

Lemma nth_error_run_tasks (P : platform) (ors : routing_service)
      (cust_lat cust_lon : float) (shortlist : list candidate) (i : nat) :
  nth_error (run_tasks P ors cust_lat cust_lon shortlist) i
  = option_map (fun c => get_distance_km P ors i cust_lat cust_lon (tlat c) (tlon c))
               (nth_error shortlist i).
Proof.
  unfold run_tasks. rewrite nth_error_map, nth_error_enumerate.
  now destruct (nth_error shortlist i).
Qed.

(** What a call that returned went through. *)
Lemma dispatch_one_returned
      (P : platform) (ors : routing_service) (db : database) (cust_id : Z)
      (a : AssignmentModel) :
  resp (dispatch_one P ors db cust_id) = Returned a ->
  exists customer shortlist i c row db',
    fetch_customer db cust_id = Ok (Some customer) /\
    make_shortlist P (cust_latitude customer) (cust_longitude customer)
                   (fetch_active_technicians db) = Ok shortlist /\
    pick_best shortlist
              (map outcome (run_tasks P ors (cust_latitude customer)
                                      (cust_longitude customer) shortlist))
    = (Some (tech_id a), distance_km a) /\
    nth_error shortlist i = Some c /\
    cand_tech_id c = tech_id a /\
    outcome (get_distance_km P ors i (cust_latitude customer) (cust_longitude customer)
                             (tlat c) (tlon c)) = Ok (distance_km a) /\
    insert_assignment db cust_id (tech_id a) (distance_km a) = Ok (row, db') /\
    db_after (dispatch_one P ors db cust_id) = db' /\
    a = model_of_row row.
Proof.
  unfold dispatch_one.
  destruct (fetch_customer db cust_id) as [[customer|]|e0] eqn:Hcust;
    [|discriminate|discriminate].
  destruct (fetch_active_technicians db) as [|t rows] eqn:Hrows; [discriminate|].
  destruct (make_shortlist _ _ _ _) as [shortlist|e] eqn:Hsl; [|discriminate].
  destruct (pick_best _ _) as [[best_id|] best_dist] eqn:Hpick; [|discriminate].
  destruct (insert_assignment _ _ _ _) as [[row db']|] eqn:Hins; [|discriminate].
  cbn [resp db_after]. intros H. injection H as <-. cbn [tech_id distance_km].
  pose proof (pick_best_best_after shortlist _
                (Nat.eq_le_incl _ _
                   (run_tasks_length P ors (cust_latitude customer)
                                     (cust_longitude customer) shortlist))) as Hbest.
  rewrite Hpick in Hbest.
  destruct Hbest as [[Hnone _] | (i & c & d & _ & Heq & Hc & Hd & _)]; [discriminate|].
  injection Heq as -> ->.
  rewrite nth_error_map, nth_error_run_tasks, Hc in Hd. cbn in Hd.
  injection Hd as Hd.
  destruct (insert_assignment_inserted _ _ _ _ _ _ Hins) as (Hrow & _).
  exists customer, shortlist, i, c, row, db'.
  repeat (split; [first [reflexivity | assumption]|]).
  subst row. reflexivity.
Qed.

(** C5.  A call that returns an assignment has appended exactly one row to
    [assignments] and changed no other table.  The row carries the call's
    customer identifier, the technician and the distance the decision loop
    selected (the technician at a shortlist position whose task returned
    that distance), the next value of the identifier sequence and the
    time of the server clock; the assignment returned is that row. *)
Theorem dispatch_one_returns_inserted
        (P : platform) (ors : routing_service) (db : database) (cust_id : Z)
        (a : AssignmentModel) :
  resp (dispatch_one P ors db cust_id) = Returned a ->
  exists customer shortlist i c row,
    fetch_customer db cust_id = Ok (Some customer) /\
    make_shortlist P (cust_latitude customer) (cust_longitude customer)
                   (fetch_active_technicians db) = Ok shortlist /\
    let tasks := map outcome (run_tasks P ors (cust_latitude customer)
                                        (cust_longitude customer) shortlist) in
    pick_best shortlist tasks = (Some (tech_id a), distance_km a) /\
    nth_error shortlist i = Some c /\
    cand_tech_id c = tech_id a /\
    nth_error tasks i = Some (Ok (distance_km a)) /\
    row = inserted_row db cust_id (tech_id a) (distance_km a) /\
    assignments (db_after (dispatch_one P ors db cust_id)) = assignments db ++ [row] /\
    customers (db_after (dispatch_one P ors db cust_id)) = customers db /\
    technicians (db_after (dispatch_one P ors db cust_id)) = technicians db /\
    a = model_of_row row.
Proof.
  intros H.
  destruct (dispatch_one_returned P ors db cust_id a H)
    as (customer & shortlist & i & c & row & db' &
        Hcust & Hsl & Hpick & Hc & Hid & Hout & Hins & Hdb & Ha).
  destruct (insert_assignment_inserted _ _ _ _ _ _ Hins)
    as (Hrow & Hrows & Hcs & Hts & _).
  exists customer, shortlist, i, c, row. cbv zeta. rewrite Hdb.
  repeat (split; [first [reflexivity | assumption]|]).
  split; [|repeat (split; [assumption|]); assumption].
  rewrite nth_error_map, nth_error_run_tasks, Hc. cbn [option_map].
  f_equal. exact Hout.
Qed.

Lemma dispatch_one_returns_inserted_witness :
  let P := small_angle_platform in
  let ors := ors_always (ors_ok (JFloat (of_Z 111000))) in
  let db := db_one_technician in
  let a := {| id := Some 1; cust_id := 1; tech_id := 7;
              distance_km := of_Z 111; assigned_at := 1000 |} in
  resp (dispatch_one P ors db 1) = Returned a /\
  exists customer shortlist i c row,
    fetch_customer db 1 = Ok (Some customer) /\
    make_shortlist P (cust_latitude customer) (cust_longitude customer)
                   (fetch_active_technicians db) = Ok shortlist /\
    let tasks := map outcome (run_tasks P ors (cust_latitude customer)
                                        (cust_longitude customer) shortlist) in
    pick_best shortlist tasks = (Some (tech_id a), distance_km a) /\
    nth_error shortlist i = Some c /\
    cand_tech_id c = tech_id a /\
    nth_error tasks i = Some (Ok (distance_km a)) /\
    row = inserted_row db 1 (tech_id a) (distance_km a) /\
    assignments (db_after (dispatch_one P ors db 1)) = assignments db ++ [row] /\
    customers (db_after (dispatch_one P ors db 1)) = customers db /\
    technicians (db_after (dispatch_one P ors db 1)) = technicians db /\
    a = model_of_row row.
Proof.
  cbv zeta.
  assert (H : resp (dispatch_one small_angle_platform
                      (ors_always (ors_ok (JFloat (of_Z 111000)))) db_one_technician 1)
              = Returned {| id := Some 1; cust_id := 1; tech_id := 7;
                            distance_km := of_Z 111; assigned_at := 1000 |})
    by (vm_compute; reflexivity).
  split; [exact H|].
  exact (dispatch_one_returns_inserted _ _ _ _ _ H).
Defined.

(* ================================================================== *)
(** * The sign of a quotient *)
(* ================================================================== *)

(** A float that is not negative: [0.0 <= x]. *)
Lemma fle_zero_cases (x : float) :
  fle zero x = true <->
  match x with
  | S754_zero _ | S754_infinity false | S754_finite false _ _ => True
  | _ => False
  end.
Proof.
  destruct x as [[|]|[|]| |[|] m e]; cbn; intuition discriminate.
Qed.

Lemma shr_1_nonneg (mrs : shr_record) : 0 <= shr_m mrs -> 0 <= shr_m (shr_1 mrs).
Proof.
  destruct mrs as [m r s]. cbn. destruct m as [|[p|p|]|p]; cbn; lia.
Qed.

Lemma iter_shr_1_nonneg (p : positive) (mrs : shr_record) :
  0 <= shr_m mrs -> 0 <= shr_m (SpecFloat.iter_pos shr_1 p mrs).
Proof.
  revert mrs. induction p as [p IH|p IH|]; intros mrs H; cbn.
  - apply IH, IH, shr_1_nonneg, H.
  - apply IH, IH, H.
  - apply shr_1_nonneg, H.
Qed.

Lemma shr_nonneg (mrs : shr_record) (e n : Z) :
  0 <= shr_m mrs -> 0 <= shr_m (fst (shr mrs e n)).
Proof.
  intros H. destruct n; cbn; auto. now apply iter_shr_1_nonneg.
Qed.

Lemma shr_record_of_loc_m (m : Z) (l : location) : shr_m (shr_record_of_loc m l) = m.
Proof. destruct l as [|[| |]]; reflexivity. Qed.

Lemma shr_fexp_nonneg (m e : Z) (l : location) :
  0 <= m -> 0 <= shr_m (fst (shr_fexp prec emax m e l)).
Proof.
  intros H. unfold shr_fexp. apply shr_nonneg. now rewrite shr_record_of_loc_m.
Qed.

Lemma round_nearest_even_nonneg (m : Z) (l : location) :
  0 <= m -> 0 <= round_nearest_even m l.
Proof.
  intros H. destruct l as [|[| |]]; cbn; try lia. destruct (Z.even m); lia.
Qed.

(** Rounding a mantissa that is not negative gives a float with the sign
    that was asked for, never a NaN. *)
Lemma binary_round_aux_sign (sx : bool) (mx ex : Z) (lx : location) :
  0 <= mx ->
  match binary_round_aux prec emax sx mx ex lx with
  | S754_zero s | S754_infinity s | S754_finite s _ _ => s = sx
  | S754_nan => False
  end.
Proof.
  intros H. unfold binary_round_aux.
  pose proof (shr_fexp_nonneg mx ex lx H) as H1.
  destruct (shr_fexp prec emax mx ex lx) as [mrs' e']. cbn [fst] in H1.
  pose proof (shr_fexp_nonneg _ e' loc_Exact
                (round_nearest_even_nonneg _ (loc_of_shr_record mrs') H1)) as H2.
  destruct (shr_fexp prec emax _ e' loc_Exact) as [mrs'' e'']. cbn [fst] in H2.
  destruct (shr_m mrs'') as [|m|m]; [reflexivity| |lia].
  destruct (e'' <=? emax - prec); reflexivity.
Qed.

Lemma SFdiv_core_binary_nonneg (m1 : positive) (e1 : Z) (m2 : positive) (e2 : Z) :
  0 <= fst (fst (SFdiv_core_binary prec emax (Zpos m1) e1 (Zpos m2) e2)).
Proof.
  unfold SFdiv_core_binary.
  set (s := _ - _ - Z.min _ _).
  set (m' := match s with Z0 => _ | Zpos _ => _ | Zneg _ => _ end).
  assert (Hm' : 0 <= m').
  { subst m'. destruct s; try lia. apply Z.shiftl_nonneg. lia. }
  pose proof (Z.div_pos m' (Zpos m2) Hm' ltac:(lia)) as Hq.
  unfold Z.div in Hq. destruct (Z.div_eucl m' (Zpos m2)) as [q r]. exact Hq.
Qed.

(** Dividing a float that is not negative by 1000.0 gives a float that is
    not negative. *)
Lemma fdiv_thousand_nonneg (m : float) :
  fle zero m = true -> fle zero (fdiv m thousand) = true.
Proof.
  intros H. apply fle_zero_cases in H. apply fle_zero_cases.
  destruct m as [s|[|]| |[|] mx ex]; try contradiction; try exact I.
  unfold fdiv, thousand, SFdiv.
  pose proof (SFdiv_core_binary_nonneg mx ex 8796093022208000 (-43)) as Hq.
  destruct (SFdiv_core_binary prec emax (Zpos mx) ex _ _) as [[mz ez] lz].
  cbn [fst] in Hq. cbn [xorb].
  pose proof (binary_round_aux_sign false mz ez lz Hq) as Hs.
  destruct (binary_round_aux prec emax false mz ez lz); subst; auto.
Qed.

Lemma fdiv_thousand_finite (s : bool) (mx : positive) (ex : Z) :
  match fdiv (S754_finite s mx ex) thousand with
  | S754_zero s' | S754_infinity s' | S754_finite s' _ _ => s' = s
  | S754_nan => False
  end.
Proof.
  unfold fdiv, thousand, SFdiv.
  pose proof (SFdiv_core_binary_nonneg mx ex 8796093022208000 (-43)) as Hq.
  destruct (SFdiv_core_binary prec emax (Zpos mx) ex _ _) as [[mz ez] lz].
  cbn [fst] in Hq. rewrite xorb_false_r.
  exact (binary_round_aux_sign s mz ez lz Hq).
Qed.

Lemma fdiv_thousand_is_nan (m : float) : is_nan (fdiv m thousand) = is_nan m.
Proof.
  destruct m as [s|s| |s mx ex]; try reflexivity.
  pose proof (fdiv_thousand_finite s mx ex) as H.
  destruct (fdiv (S754_finite s mx ex) thousand); cbn; auto. destruct H.
Qed.

(* ================================================================== *)
(** * Routing resolver: the retry *)
(* ================================================================== *)

Section RetryFacts.
Context {A : Type}.
Variable p : retry_policy.
Variable f : nat -> result A.

(** The loop makes attempts [n], [n + 1], ... and stops at the first that
    returns, or at the last one allowed; it sleeps after each attempt but
    the last; its outcome is that of the last attempt it made. *)
Lemma retry_from_run (remaining n : nat) :
  let run := retry_from p f remaining n in
  (n <= attempts run <= n + remaining)%nat /\
  (forall k, (n <= k < attempts run)%nat -> is_ok (f k) = false) /\
  sleeps run = map (wait_exponential p) (seq n (attempts run - n)) /\
  (is_ok (f (attempts run)) = true -> outcome run = f (attempts run)) /\
  (forall e, f (attempts run) = Err e ->
             attempts run = (n + remaining)%nat /\
             outcome run = if reraise p then Err e else Err RetryError).
Proof.
  revert n. induction remaining as [|remaining IH]; intros n; cbn zeta; cbn [retry_from].
  - destruct (f n) as [a|e] eqn:Hn; cbn [attempts sleeps outcome];
      rewrite Nat.sub_diag; cbn [seq map].
    + split; [lia|]. split; [intros k Hk; lia|]. split; [reflexivity|].
      split; [intros _; now rewrite Hn|]. intros e He. congruence.
    + split; [lia|]. split; [intros k Hk; lia|]. split; [reflexivity|].
      split; [intros H; rewrite Hn in H; discriminate|].
      intros e' He'. rewrite Hn in He'. injection He' as ->. split; [lia|reflexivity].
  - destruct (f n) as [a|e] eqn:Hn; cbn [attempts sleeps outcome].
    + rewrite Nat.sub_diag; cbn [seq map].
      split; [lia|]. split; [intros k Hk; lia|]. split; [reflexivity|].
      split; [intros _; now rewrite Hn|]. intros e He. congruence.
    + destruct (IH (S n)) as (Hatt & Hfail & Hsl & Hok & Herr).
      set (run := retry_from p f remaining (S n)) in *.
      split; [lia|]. split.
      * intros k Hk. destruct (Nat.eq_dec k n) as [->|Hne].
        -- now rewrite Hn.
        -- apply Hfail. lia.
      * split.
        -- replace (attempts run - n)%nat with (S (attempts run - S n)) by lia.
           cbn [seq map]. now rewrite Hsl.
        -- split; [exact Hok|].
           intros e' He'. destruct (Herr e' He') as [H1 H2]. split; [lia|exact H2].
Qed.

End RetryFacts.

Lemma wait_exponential_schedule (n : nat) :
  (1 <= n)%nat ->
  wait_exponential get_distance_km_policy n = Z.min (2 ^ (Z.of_nat n - 1)) 10.
Proof.
  intros Hn. unfold wait_exponential, get_distance_km_policy. cbn [wait_min wait_max].
  assert (0 < 2 ^ (Z.of_nat n - 1)) by (apply Z.pow_pos_nonneg; lia).
  lia.
Qed.

(** C6.  A resolution makes between one and three attempts, each before
    the last one having failed.  Between attempts it waits 1 and then 2
    time units: after attempt [n] the wait is [min(2 ** (n - 1), 10)], which
    starts at 1, doubles, and never exceeds 10.  Its outcome is the outcome
    of the last attempt it made, so when the third attempt fails with [e]
    the resolution fails with [e]. *)
Theorem get_distance_km_retries
        (P : platform) (ors : routing_service) (idx : nat) (lat1 lon1 lat2 lon2 : float) :
  let params := {| start_lon := lon1; start_lat := lat1;
                   end_lon := lon2; end_lat := lat2 |} in
  let try_ n := attempt P (ors idx n params) in
  let run := get_distance_km P ors idx lat1 lon1 lat2 lon2 in
  (1 <= attempts run <= 3)%nat /\
  (forall k, (1 <= k < attempts run)%nat -> is_ok (try_ k) = false) /\
  sleeps run = firstn (attempts run - 1) [1; 2] /\
  Forall (fun w => 1 <= w <= 10) (sleeps run) /\
  (forall n, (1 <= n)%nat ->
             wait_exponential get_distance_km_policy n = Z.min (2 ^ (Z.of_nat n - 1)) 10) /\
  outcome run = try_ (attempts run) /\
  (forall e, is_ok (try_ 1%nat) = false -> is_ok (try_ 2%nat) = false ->
             try_ 3%nat = Err e ->
             attempts run = 3%nat /\ outcome run = Err e).
Proof.
  intros params try_ run.
  destruct (retry_from_run get_distance_km_policy try_ 2 1)
    as (Hatt & Hfail & Hsl & Hok & Herr).
  change (retry_from get_distance_km_policy try_ 2 1) with run in *.
  assert (Hsleeps : sleeps run = firstn (attempts run - 1) [1; 2]).
  { rewrite Hsl.
    assert (Hc : attempts run = 1%nat \/ attempts run = 2%nat \/ attempts run = 3%nat)
      by lia.
    destruct Hc as [-> | [-> | ->]]; reflexivity. }
  split; [lia|]. split; [exact Hfail|]. split; [exact Hsleeps|]. split.
  { rewrite Hsleeps. apply Forall_forall. intros w Hw. apply In_firstn in Hw.
    cbn in Hw. lia. }
  split; [exact wait_exponential_schedule|]. split.
  { destruct (try_ (attempts run)) as [d|e] eqn:Hlast.
    - apply Hok. reflexivity.
    - destruct (Herr e eq_refl) as [_ Hout]. exact Hout. }
  intros e H1 H2 H3.
  assert (Hthree : attempts run = 3%nat).
  { destruct (try_ (attempts run)) as [d|e'] eqn:Hlast.
    - assert (Hc : attempts run = 1%nat \/ attempts run = 2%nat \/ attempts run = 3%nat)
        by lia.
      destruct Hc as [Hc | [Hc | Hc]]; rewrite Hc in Hlast; [| |exact Hc].
      + rewrite Hlast in H1. discriminate.
      + rewrite Hlast in H2. discriminate.
    - destruct (Herr e' eq_refl) as [Hn _]. exact Hn. }
  split; [exact Hthree|].
  rewrite Hthree in Herr. destruct (Herr e H3) as [_ Hout]. exact Hout.
Qed.

Lemma get_distance_km_retries_witness :
  let run := get_distance_km small_angle_platform (ors_always NetworkError)
                             0 zero zero zero one in
  attempts run = 3%nat /\ sleeps run = [1; 2] /\ outcome run = Err TransportError.
Proof.
  cbv zeta.
  destruct (get_distance_km_retries small_angle_platform (ors_always NetworkError)
              0 zero zero zero one) as (_ & _ & Hsleeps & _ & _ & _ & Hlast).
  destruct (Hlast TransportError eq_refl eq_refl eq_refl) as [Hthree Hout].
  rewrite Hthree in Hsleeps. auto.
Defined.

(* ================================================================== *)
(** * Routing resolver: one attempt *)
(* ================================================================== *)

Ltac break_match :=
  match goal with
  | H : context [match ?x with _ => _ end] |- _ => destruct x eqn:?
  | |- context [match ?x with _ => _ end] => destruct x eqn:?
  end.

Ltac inject_all :=
  repeat match goal with
         | H : Ok _ = Ok _ |- _ => injection H as H
         | H : Some _ = Some _ |- _ => injection H as H
         | H : JObj _ = JObj _ |- _ => injection H as H
         | H : JArr _ = JArr _ |- _ => injection H as H
         | H : _ :: _ = _ :: _ |- _ => injection H as ? ?
         end.

Ltac crunch_body :=
  repeat first
         [ discriminate
         | congruence
         | progress inject_all
         | progress subst
         | progress cbn [truthy negb assoc] in *
         | break_match ].

(** When the code finds a [distance_m] that is not [None], it is the
    distance field of the body. *)
Lemma distance_m_of_body_field (data x : json) :
  distance_m_of_body data = Ok x -> x <> JNull -> distance_field data = Some x.
Proof.
  unfold distance_m_of_body, distance_field, py_get, py_or, py_item0, bind.
  intros H Hx. crunch_body.
Qed.

Lemma distance_field_m_of_body (data x : json) :
  distance_field data = Some x -> distance_m_of_body data = Ok x.
Proof.
  unfold distance_m_of_body, distance_field, py_get, py_or, py_item0, bind.
  intros H. crunch_body.
Qed.

Lemma distance_of_body_number (P : platform) (data x : json) (m : float) :
  distance_field data = Some x -> number_to_float x = Some m ->
  distance_of_body P data = Ok (fdiv m thousand).
Proof.
  intros Hx Hm. unfold distance_of_body.
  rewrite (distance_field_m_of_body data x Hx). cbn [bind].
  destruct x; try discriminate; cbn in Hm |- *.
  - destruct (float_of_int z); [|discriminate]. now injection Hm as ->.
  - now injection Hm as ->.
Qed.

(** A body the code gets kilometres from has a distance field, which is
    not [None] and which [float()] converts. *)
Lemma distance_of_body_returned (P : platform) (data : json) (d : float) :
  distance_of_body P data = Ok d ->
  exists x m, distance_field data = Some x /\ x <> JNull /\
              py_float P x = Ok m /\ d = fdiv m thousand.
Proof.
  unfold distance_of_body. intros H.
  destruct (distance_m_of_body data) as [x|e] eqn:Hx; [|discriminate].
  cbn [bind] in H.
  assert (Hnn : x <> JNull) by (intros ->; discriminate).
  destruct (py_float P x) as [m|e] eqn:Hm.
  - exists x, m. split; [now apply distance_m_of_body_field|].
    split; [exact Hnn|]. split; [exact Hm|].
    destruct x; cbn [bind] in H; congruence.
  - destruct x; cbn [bind] in H; congruence.
Qed.

Lemma distance_of_body_no_field (P : platform) (data : json) :
  distance_field data = None \/ distance_field data = Some JNull ->
  is_ok (distance_of_body P data) = false.
Proof.
  intros H. destruct (distance_of_body P data) as [d|e] eqn:Hd; [|reflexivity].
  destruct (distance_of_body_returned P data d Hd) as (x & m & Hx & Hnn & _).
  destruct H as [H|H]; congruence.
Qed.

Lemma distance_of_body_no_features (P : platform) (data : json) :
  no_features data = true ->
  distance_of_body P data = Err (ValueError "ORS returned no features").
Proof.
  unfold no_features, distance_of_body, distance_m_of_body, py_get, py_or, bind.
  intros H. crunch_body.
Qed.

Section RetryFirstSuccess.
Context {A : Type}.
Variable p : retry_policy.
Variable f : nat -> result A.

Lemma retry_from_first_success (remaining n0 n : nat) (a : A) :
  (n0 <= n <= n0 + remaining)%nat ->
  (forall k, (n0 <= k < n)%nat -> is_ok (f k) = false) ->
  f n = Ok a ->
  outcome (retry_from p f remaining n0) = Ok a /\
  attempts (retry_from p f remaining n0) = n.
Proof.
  revert n0. induction remaining as [|remaining IH]; intros n0 Hn Hfail Hok;
    cbn [retry_from].
  - assert (n = n0) by lia. subst n. rewrite Hok. cbn. auto.
  - destruct (Nat.eq_dec n n0) as [->|Hne].
    + rewrite Hok. cbn. auto.
    + destruct (f n0) as [a'|e] eqn:H0.
      * specialize (Hfail n0 ltac:(lia)). rewrite H0 in Hfail. discriminate.
      * cbn [outcome attempts]. apply IH; [lia| |exact Hok].
        intros k Hk. apply Hfail. lia.
Qed.
End RetryFirstSuccess.

(** C7, as amended.  Of a response whose status is not an error:
    - when the body has a distance field (under [properties.summary] of the
      first of a non-empty [features] array) that is a number with a float
      value -- a float, or an integer whose nearest double is finite -- the
      attempt returns that float divided by 1000.0;
    - when [features] is empty or absent the attempt fails, with
      "ORS returned no features";
    - when the distance field is missing or null the attempt fails.
    And the resolution returns what its first successful attempt returns,
    provided it is one of the three. *)
Theorem attempt_returns_kilometres (P : platform) :
  (forall data x m,
      distance_field data = Some x -> number_to_float x = Some m ->
      attempt P (Reply false (Some data)) = Ok (fdiv m thousand)) /\
  (forall data,
      no_features data = true ->
      attempt P (Reply false (Some data)) = Err (ValueError "ORS returned no features")) /\
  (forall data,
      distance_field data = None \/ distance_field data = Some JNull ->
      is_ok (attempt P (Reply false (Some data))) = false) /\
  (forall ors idx lat1 lon1 lat2 lon2 n d,
      let params := {| start_lon := lon1; start_lat := lat1;
                       end_lon := lon2; end_lat := lat2 |} in
      (1 <= n <= 3)%nat ->
      (forall k, (1 <= k < n)%nat -> is_ok (attempt P (ors idx k params)) = false) ->
      attempt P (ors idx n params) = Ok d ->
      outcome (get_distance_km P ors idx lat1 lon1 lat2 lon2) = Ok d).
Proof.
  split; [|split; [|split]].
  - intros data x m Hx Hm. cbn [attempt]. now apply distance_of_body_number with x.
  - intros data H. cbn [attempt]. now apply distance_of_body_no_features.
  - intros data H. cbn [attempt]. now apply distance_of_body_no_field.
  - intros ors idx lat1 lon1 lat2 lon2 n d params Hn Hfail Hok.
    unfold get_distance_km, retry. cbn [get_distance_km_policy stop_attempts Nat.pred].
    apply (retry_from_first_success get_distance_km_policy
             (fun k => attempt P (ors idx k params)) 2 1 n d); auto.
Qed.

Lemma attempt_returns_kilometres_witness :
  let data := ors_body (JFloat (of_Z 111000)) in
  distance_field data = Some (JFloat (of_Z 111000)) /\
  attempt small_angle_platform (Reply false (Some data)) = Ok (of_Z 111) /\
  outcome (get_distance_km small_angle_platform
             (fun _ n _ => match n with 3%nat => ors_ok (JInt 2500) | _ => NetworkError end)
             0 zero zero zero one) = Ok (fdiv (of_Z 2500) thousand).
Proof.
  cbv zeta.
  destruct (attempt_returns_kilometres small_angle_platform) as (H1 & _ & _ & H4).
  split; [reflexivity|]. split.
  - exact (H1 (ors_body (JFloat (of_Z 111000))) (JFloat (of_Z 111000)) (of_Z 111000)
              eq_refl eq_refl).
  - apply (H4 _ 0%nat zero zero zero one 3%nat).
    + lia.
    + intros k Hk. assert (Hc : k = 1%nat \/ k = 2%nat) by lia.
      destruct Hc as [-> | ->]; reflexivity.
    + reflexivity.
Defined.

(** C7 as it is written fails: an integer distance of [2 ** 1024] metres
    is a numeric distance field in a response with a good status and a
    non-empty [features] array, and [float()] raises [OverflowError] on
    it, so every attempt fails, and the resolution with it. *)
Lemma attempt_integer_overflow :
  let x := JInt (2 ^ 1024) in
  let data := ors_body x in
  distance_field data = Some x /\
  is_number x = true /\
  no_features data = false /\
  attempt small_angle_platform (Reply false (Some data)) = Err OverflowError /\
  outcome (get_distance_km small_angle_platform (ors_always (ors_ok x))
                           0 zero zero zero zero) = Err OverflowError.
Proof.
  cbv zeta. repeat split; vm_compute; reflexivity.
Qed.

(* ================================================================== *)
(** * The sign of the stored distance *)
(* ================================================================== *)

Lemma retry_from_outcome_ok {A : Type} (p : retry_policy) (f : nat -> result A)
      (remaining n : nat) (a : A) :
  outcome (retry_from p f remaining n) = Ok a -> exists k, f k = Ok a.
Proof.
  intros H.
  destruct (retry_from_run p f remaining n) as (_ & _ & _ & Hok & Herr).
  destruct (f (attempts (retry_from p f remaining n))) as [a'|e] eqn:Hlast.
  - exists (attempts (retry_from p f remaining n)).
    rewrite Hlast. rewrite Hok in H by reflexivity. exact H.
  - destruct (Herr e eq_refl) as [_ Hout]. rewrite Hout in H.
    destruct (reraise p); discriminate.
Qed.

Lemma attempt_returned (P : platform) (r : http_reply) (d : float) :
  attempt P r = Ok d ->
  exists data, r = Reply false (Some data) /\ distance_of_body P data = Ok d.
Proof.
  destruct r as [|[|] [data|]]; cbn; try discriminate. intros H. now exists data.
Qed.

(** What a resolution returns is a distance field of a body of the
    service, converted and divided by 1000.0. *)
Lemma get_distance_km_returned (P : platform) (ors : routing_service) (idx : nat)
      (lat1 lon1 lat2 lon2 d : float) :
  outcome (get_distance_km P ors idx lat1 lon1 lat2 lon2) = Ok d ->
  exists n req data x m,
    ors idx n req = Reply false (Some data) /\
    distance_field data = Some x /\
    py_float P x = Ok m /\
    d = fdiv m thousand.
Proof.
  unfold get_distance_km, retry. intros H.
  apply retry_from_outcome_ok in H. destruct H as (k & Hk).
  apply attempt_returned in Hk. destruct Hk as (data & Hreply & Hbody).
  apply distance_of_body_returned in Hbody.
  destruct Hbody as (x & m & Hx & _ & Hm & Hd).
  now exists k, {| start_lon := lon1; start_lat := lat1;
                   end_lon := lon2; end_lat := lat2 |}, data, x, m.
Qed.

Lemma pick_best_some (shortlist : list candidate) (tasks : list (result float))
      (best_id : Z) (best_dist : float) :
  (List.length tasks <= List.length shortlist)%nat ->
  pick_best shortlist tasks = (Some best_id, best_dist) ->
  exists i c,
    nth_error shortlist i = Some c /\ cand_tech_id c = best_id /\
    nth_error tasks i = Some (Ok best_dist) /\ flt best_dist inf = true.
Proof.
  intros Hlen Hpick.
  destruct (pick_best_best_after shortlist tasks Hlen)
    as [[H _] | (i & c & d & _ & H & Hc & Hi & Hd & _)]; [congruence|].
  rewrite Hpick in H. injection H as -> ->. now exists i, c.
Qed.

(** C8, as amended.  When no distance the routing service reports is
    below zero (a NaN is not: nothing is assumed of it), a call that
    returns has stored a distance that is not negative: the row it
    appended and the assignment it returned carry the same distance [d],
    and [0.0 <= d].  A NaN the service reports is never stored, for the
    comparison with the sentinel rejects it. *)
Theorem dispatch_one_distance_nonneg
        (P : platform) (ors : routing_service) (db : database) (cust_id : Z)
        (a : AssignmentModel) :
  service_distances_nonneg P ors ->
  resp (dispatch_one P ors db cust_id) = Returned a ->
  exists row,
    assignments (db_after (dispatch_one P ors db cust_id)) = assignments db ++ [row] /\
    row_distance_km row = distance_km a /\
    fle zero (row_distance_km row) = true.
Proof.
  intros Hservice H.
  destruct (dispatch_one_returned P ors db cust_id a H)
    as (customer & shortlist & i & c & row & db' &
        _ & _ & Hpick & _ & _ & Hout & Hins & Hdb & Ha).
  destruct (insert_assignment_inserted _ _ _ _ _ _ Hins) as (Hrow & Hrows & _).
  exists row. rewrite Hdb. split; [exact Hrows|].
  assert (Hd : row_distance_km row = distance_km a) by (subst row; reflexivity).
  split; [exact Hd|]. rewrite Hd.
  assert (Hnum : is_nan (distance_km a) = false).
  { apply pick_best_some in Hpick.
    - destruct Hpick as (j & c' & _ & _ & _ & Hlt). eapply flt_not_nan_l; eauto.
    - apply Nat.eq_le_incl, run_tasks_length. }
  destruct (get_distance_km_returned _ _ _ _ _ _ _ _ Hout)
    as (n & req & data & x & m & Hreply & Hx & Hm & Hkm).
  rewrite Hkm in Hnum |- *. rewrite fdiv_thousand_is_nan in Hnum.
  apply fdiv_thousand_nonneg.
  apply not_flt_fle; [exact Hnum | reflexivity |].
  exact (Hservice i n req data x m Hreply Hx Hm).
Qed.

Lemma dispatch_one_distance_nonneg_witness :
  let P := small_angle_platform in
  let ors := ors_always (ors_ok (JFloat (of_Z 111000))) in
  let db := db_one_technician in
  let a := {| id := Some 1; cust_id := 1; tech_id := 7;
              distance_km := of_Z 111; assigned_at := 1000 |} in
  service_distances_nonneg P ors /\
  resp (dispatch_one P ors db 1) = Returned a /\
  exists row,
    assignments (db_after (dispatch_one P ors db 1)) = assignments db ++ [row] /\
    row_distance_km row = distance_km a /\
    fle zero (row_distance_km row) = true.
Proof.
  cbv zeta.
  assert (H1 : service_distances_nonneg small_angle_platform
                 (ors_always (ors_ok (JFloat (of_Z 111000))))).
  { intros idx n req data x m Hreply Hx Hm.
    unfold ors_always, ors_ok in Hreply. injection Hreply as <-.
    vm_compute in Hx. injection Hx as <-.
    vm_compute in Hm. injection Hm as <-. reflexivity. }
  assert (H2 : resp (dispatch_one small_angle_platform
                       (ors_always (ors_ok (JFloat (of_Z 111000)))) db_one_technician 1)
               = Returned {| id := Some 1; cust_id := 1; tech_id := 7;
                             distance_km := of_Z 111; assigned_at := 1000 |})
    by (vm_compute; reflexivity).
  split; [exact H1|]. split; [exact H2|].
  exact (dispatch_one_distance_nonneg _ _ _ _ _ H1 H2).
Defined.

(** C8 as it is written fails: the service answers -1000 metres, the call
    returns, and the row it stored has distance -1.0. *)
Lemma dispatch_one_negative_distance :
  let run := dispatch_one small_angle_platform (ors_always (ors_ok (JInt (-1000))))
                          db_one_technician 1 in
  let row := {| row_id := 1; row_cust_id := 1; row_tech_id := 7;
                row_distance_km := SFopp one; row_assigned_at := 1000 |} in
  resp run = Returned (model_of_row row) /\
  assignments (db_after run) = [row] /\
  fle zero (row_distance_km row) = false /\
  flt (row_distance_km row) zero = true.
Proof.
  cbv zeta. repeat split; vm_compute; reflexivity.
Qed.

(* ================================================================== *)
(** * Listing the assignments *)
(* ================================================================== *)

Lemma insert_desc_perm (x : assignment_row) (l : list assignment_row) :
  Permutation (insert_desc x l) (x :: l).
Proof.
  induction l as [|y l IH]; cbn.
  - reflexivity.
  - destruct (row_assigned_at x <? row_assigned_at y).
    + rewrite IH. apply perm_swap.
    + reflexivity.
Qed.

Lemma order_by_assigned_at_desc_perm (l : list assignment_row) :
  Permutation (order_by_assigned_at_desc l) l.
Proof.
  induction l as [|x l IH]; cbn.
  - reflexivity.
  - rewrite insert_desc_perm. now constructor.
Qed.

Lemma insert_desc_sorted (x : assignment_row) (l : list assignment_row) :
  StronglySorted newer_or_same l -> StronglySorted newer_or_same (insert_desc x l).
Proof.
  induction 1 as [|y l Hs IH Hy]; cbn.
  - repeat constructor.
  - destruct (Z.ltb_spec (row_assigned_at x) (row_assigned_at y)) as [Hlt|Hge].
    + constructor; [exact IH|].
      eapply Permutation_Forall; [symmetry; apply insert_desc_perm|].
      constructor; [|exact Hy]. unfold newer_or_same. lia.
    + constructor; [now constructor|].
      constructor; [exact Hge|].
      eapply Forall_impl; [|exact Hy].
      unfold newer_or_same. intros z Hz. lia.
Qed.

Lemma order_by_assigned_at_desc_sorted (l : list assignment_row) :
  StronglySorted newer_or_same (order_by_assigned_at_desc l).
Proof.
  induction l as [|x l IH]; cbn.
  - constructor.
  - now apply insert_desc_sorted.
Qed.

(** C10.  Listing returns the models of rows that are a rearrangement of
    the stored assignments -- each stored row once, with the fields it was
    stored with -- most recent first, and changes nothing. *)
Theorem list_assignments_all_desc (db : database) :
  exists rows,
    resp (list_assignments db) = Returned (map model_of_row rows) /\
    Permutation rows (assignments db) /\
    StronglySorted newer_or_same rows /\
    Forall2 (fun r a => id a = Some (row_id r) /\ cust_id a = row_cust_id r /\
                        tech_id a = row_tech_id r /\
                        distance_km a = row_distance_km r /\
                        assigned_at a = row_assigned_at r)
            rows (map model_of_row rows) /\
    db_after (list_assignments db) = db /\
    ors_log (list_assignments db) = [].
Proof.
  exists (fetch_assignments db). unfold list_assignments, fetch_assignments. cbn.
  split; [reflexivity|].
  split; [apply order_by_assigned_at_desc_perm|].
  split; [apply order_by_assigned_at_desc_sorted|].
  split; [|split; reflexivity].
  induction (order_by_assigned_at_desc (assignments db)); cbn; constructor; auto.
Qed.

Example list_assignments_three :
  resp (list_assignments db_three_assignments)
  = Returned
      [{| id := Some 2; cust_id := 1; tech_id := 7;
          distance_km := two; assigned_at := 3000 |};
       {| id := Some 3; cust_id := 1; tech_id := 7;
          distance_km := thousand; assigned_at := 2000 |};
       {| id := Some 1; cust_id := 1; tech_id := 7;
          distance_km := one; assigned_at := 1000 |}].
Proof. reflexivity. Qed.

(* ================================================================== *)
(** * The geometric estimator *)
(* ================================================================== *)


(** Changing the sign of an operand. *)



Lemma fmul_finite_eq (sx : bool) (mx : positive) (ex : Z) (sy : bool) (my : positive) (ey : Z) :
  fmul (S754_finite sx mx ex) (S754_finite sy my ey)
  = binary_round_aux prec emax (xorb sx sy) (Zpos (mx * my)) (ex + ey) loc_Exact.
Proof. reflexivity. Qed.










(** The number of binary digits of a mantissa, through rounding. *)


















(** The formula, with its two squared sines named. *)
Lemma haversine_km_unfold (P : platform) (lat1 lon1 lat2 lon2 : float) :
  haversine_km P lat1 lon1 lat2 lon2
  = (s1sq <- sin_squared P (fdiv (math_radians (fsub lat2 lat1)) two) ;;
     c1 <- math_cos P (math_radians lat1) ;;
     c2 <- math_cos P (math_radians lat2) ;;
     s2sq <- sin_squared P (fdiv (math_radians (fsub lon2 lon1)) two) ;;
     r <- math_sqrt P (fadd s1sq (fmul (fmul c1 c2) s2sq)) ;;
     h <- math_asin P r ;;
     Ok (fmul (fmul two R_earth) h)).
Proof.
  unfold haversine_km, sin_squared. cbv zeta.
  destruct (math_sin P (fdiv (math_radians (fsub lat2 lat1)) two)) as [s1|e];
    cbn [bind]; [|reflexivity].
  destruct (float_pow P s1 two) as [q1|e]; cbn [bind]; [|reflexivity].
  destruct (math_cos P (math_radians lat1)) as [c1|e]; cbn [bind]; [|reflexivity].
  destruct (math_cos P (math_radians lat2)) as [c2|e]; cbn [bind]; [|reflexivity].
  destruct (math_sin P (fdiv (math_radians (fsub lon2 lon1)) two)) as [s2|e];
    cbn [bind]; reflexivity.
Qed.



Lemma haversine_km_formula (P : platform) (lat1 lon1 lat2 lon2 d : float) :
  haversine_km P lat1 lon1 lat2 lon2 = Ok d ->
  exists s1 c1 c2 s2 r h,
    sin_squared P (fdiv (math_radians (fsub lat2 lat1)) two) = Ok s1 /\
    math_cos P (math_radians lat1) = Ok c1 /\
    math_cos P (math_radians lat2) = Ok c2 /\
    sin_squared P (fdiv (math_radians (fsub lon2 lon1)) two) = Ok s2 /\
    math_sqrt P (fadd s1 (fmul (fmul c1 c2) s2)) = Ok r /\
    math_asin P r = Ok h /\
    d = fmul (fmul two (of_Z 6371)) h.
Proof.
  rewrite haversine_km_unfold.
  destruct (sin_squared P (fdiv (math_radians (fsub lat2 lat1)) two)) as [s1|e];
    cbn [bind]; [|discriminate].
  destruct (math_cos P (math_radians lat1)) as [c1|e] eqn:E1; cbn [bind]; [|discriminate].
  destruct (math_cos P (math_radians lat2)) as [c2|e] eqn:E2; cbn [bind]; [|discriminate].
  destruct (sin_squared P (fdiv (math_radians (fsub lon2 lon1)) two)) as [s2|e];
    cbn [bind]; [|discriminate].
  destruct (math_sqrt P _) as [r|e] eqn:Er; cbn [bind]; [|discriminate].
  destruct (math_asin P r) as [h|e] eqn:Eh; cbn [bind]; [|discriminate].
  intros H. injection H as <-.
  exists s1, c1, c2, s2, r, h. repeat split; try reflexivity; assumption.
Qed.








Lemma not_below_zero_cases (x : float) :
  flt x zero = false <->
  match x with
  | S754_infinity true | S754_finite true _ _ => False
  | _ => True
  end.
Proof.
  destruct x as [[|]|[|]| |[|] m e]; cbn; intuition discriminate.
Qed.

Lemma binary_round_aux_not_below_zero (m e : Z) (l : location) :
  0 <= m -> flt (binary_round_aux prec emax false m e l) zero = false.
Proof.
  intros Hm. pose proof (binary_round_aux_sign false m e l Hm) as Hs.
  apply not_below_zero_cases.
  destruct (binary_round_aux prec emax false m e l) as [s|s| |s m' e'];
    subst; auto.
Qed.

Lemma fmul_not_below_zero (m : positive) (e : Z) (h : float) :
  flt h zero = false -> flt (fmul (S754_finite false m e) h) zero = false.
Proof.
  intros H. apply not_below_zero_cases in H.
  destruct h as [[|]|[|]| |[|] mh eh]; try contradiction; try reflexivity.
  rewrite fmul_finite_eq. apply binary_round_aux_not_below_zero. lia.
Qed.

Lemma SFsqrt_core_binary_nonneg (m : positive) (e : Z) :
  0 <= fst (fst (SFsqrt_core_binary prec emax (Zpos m) e)).
Proof.
  unfold SFsqrt_core_binary.
  set (m' := match _ - _ with Zpos _ => _ | Z0 => _ | Zneg _ => _ end).
  pose proof (Z.sqrtrem_sqrt m') as Hq.
  destruct (Z.sqrtrem m') as [q r]. cbn [fst] in *. subst q. apply Z.sqrt_nonneg.
Qed.

Lemma fsqrt_not_below_zero (x : float) : flt (fsqrt x) zero = false.
Proof.
  destruct x as [[|]|[|]| |[|] m e]; try reflexivity.
  unfold fsqrt, SFsqrt.
  pose proof (SFsqrt_core_binary_nonneg m e) as Hq.
  destruct (SFsqrt_core_binary prec emax (Zpos m) e) as [[mz ez] lz]. cbn [fst] in Hq.
  now apply binary_round_aux_not_below_zero.
Qed.

Lemma small_angle_sqrt_not_negative : sqrt_not_negative small_angle_platform.
Proof.
  intros a r. unfold small_angle_platform. cbn [math_sqrt].
  destruct (flt a zero); [discriminate|]. intros H. injection H as <-.
  apply fsqrt_not_below_zero.
Qed.

Lemma small_angle_asin_keeps_sign : asin_keeps_sign small_angle_platform.
Proof.
  intros r h. unfold small_angle_platform. cbn [math_asin].
  destruct (flt one (SFabs r)); [discriminate|]. intros H. injection H as <-.
  exact (fun H => H).
Qed.

(** The estimate is never below zero: on a platform whose square root is
    not below zero and whose arc sine keeps the sign, every distance
    [haversine_km] returns is [0.0] or more, or a NaN. *)
Theorem haversine_km_not_negative (P : platform) (lat1 lon1 lat2 lon2 d : float) :
  sqrt_not_negative P ->
  asin_keeps_sign P ->
  haversine_km P lat1 lon1 lat2 lon2 = Ok d ->
  flt d zero = false /\ (is_nan d = false -> fle zero d = true).
Proof.
  intros Hsqrt Hasin H.
  destruct (haversine_km_formula P lat1 lon1 lat2 lon2 d H)
    as (s1 & c1 & c2 & s2 & r & h & _ & _ & _ & _ & Hr & Hh & ->).
  assert (Hd : flt (fmul (fmul two (of_Z 6371)) h) zero = false).
  { assert (Hk : exists m e, fmul two (of_Z 6371) = S754_finite false m e)
      by (vm_compute; eauto).
    destruct Hk as (m & e & ->).
    apply fmul_not_below_zero. exact (Hasin r h Hh (Hsqrt _ r Hr)). }
  split; [exact Hd|].
  intros Hnan. apply not_flt_fle; [exact Hnan | reflexivity | exact Hd].
Qed.

Lemma haversine_km_not_negative_witness :
  sqrt_not_negative small_angle_platform /\
  asin_keeps_sign small_angle_platform /\
  haversine_km small_angle_platform zero zero zero one
  = Ok (S754_finite false 7824647346905068 (-46)) /\
  flt (S754_finite false 7824647346905068 (-46)) zero = false /\
  (is_nan (S754_finite false 7824647346905068 (-46)) = false ->
   fle zero (S754_finite false 7824647346905068 (-46)) = true).
Proof.
  pose proof small_angle_sqrt_not_negative as H1.
  pose proof small_angle_asin_keeps_sign as H2.
  assert (H3 : haversine_km small_angle_platform zero zero zero one
               = Ok (S754_finite false 7824647346905068 (-46)))
    by (vm_compute; reflexivity).
  split; [exact H1|]. split; [exact H2|]. split; [exact H3|].
  exact (haversine_km_not_negative small_angle_platform zero zero zero one _ H1 H2 H3).
Defined.


(* ================================================================== *)
(** * The scenarios of the design, run *)
(* ================================================================== *)

(** The constants are numbers of the binary64 format. *)
Example constants_valid :
  forallb valid [zero; one; two; thousand; deg_to_rad; R_earth; of_Z 111000; SFopp one]
  = true.
Proof. reflexivity. Qed.

(** No active technician: [NoTechniciansAvailable], and nothing is sent to
    the routing service. *)
Example scenario_no_technicians :
  let r := dispatch_one small_angle_platform (ors_always (ors_ok (JInt 5000)))
                        db_no_active_technician 1 in
  resp r = NoTechniciansAvailable /\ db_after r = db_no_active_technician /\ ors_log r = [].
Proof. cbv zeta. repeat split. Qed.

(** One technician at (0, 1) whose routing call answers 111000 metres: the
    assignment of that technician at 111.0 km. *)
Example scenario_one_technician :
  let r := dispatch_one small_angle_platform (ors_always (ors_ok (JFloat (of_Z 111000))))
                        db_technician_east 1 in
  resp r = Returned {| id := Some 1; cust_id := 1; tech_id := 7;
                       distance_km := of_Z 111; assigned_at := 1000 |} /\
  List.length (ors_log r) = 1%nat.
Proof. cbv zeta. split; vm_compute; reflexivity. Qed.

(** An empty feature list on every attempt for every candidate:
    [NoResolvableTechnician], after three attempts for each of the five
    shortlisted technicians. *)
Example scenario_no_route :
  let r := dispatch_one small_angle_platform (ors_always ors_no_route)
                        db_six_technicians 1 in
  resp r = NoResolvableTechnician /\
  db_after r = db_six_technicians /\
  map (fun c => (call_task c, call_attempt c)) (ors_log r)
  = [(0, 1); (0, 2); (0, 3); (1, 1); (1, 2); (1, 3); (2, 1); (2, 2); (2, 3);
     (3, 1); (3, 2); (3, 3); (4, 1); (4, 2); (4, 3)]%nat.
Proof. cbv zeta. repeat split; vm_compute; reflexivity. Qed.

(** Only one task returns, the one of the fifth candidate by estimate: it
    is selected whatever its rank. *)
Example scenario_single_success :
  let ors : routing_service :=
    fun idx _ _ => match idx with 4%nat => ors_ok (JInt 9000) | _ => NetworkError end in
  let r := dispatch_one small_angle_platform ors db_six_technicians 1 in
  resp r = Returned {| id := Some 1; cust_id := 1; tech_id := 26;
                       distance_km := of_Z 9; assigned_at := 1000 |}.
Proof. cbv zeta. vm_compute. reflexivity. Qed.

(** Two tasks return the same minimal distance: the earlier shortlist
    position wins. *)
Example scenario_tie :
  pick_best three_candidates [Ok (of_Z 3); Ok (of_Z 5); Ok (of_Z 3)]
  = (Some 11, of_Z 3).
Proof. vm_compute. reflexivity. Qed.

(* ================================================================== *)
(** * A resolved candidate is assigned *)
(* ================================================================== *)

Lemma build_candidates_rel (P : platform) (cust_lat cust_lon : float)
      (tech_rows : list technician_row) (candidates : list candidate) :
  build_candidates P cust_lat cust_lon tech_rows = Ok candidates ->
  Forall2 (candidate_of P cust_lat cust_lon) tech_rows candidates.
Proof.
  revert candidates. induction tech_rows as [|r rows IH]; intros cs; cbn.
  - intros H. injection H as <-. constructor.
  - destruct (haversine_km P cust_lat cust_lon (tech_latitude r) (tech_longitude r))
      as [e|x] eqn:He; cbn; [|discriminate].
    destruct (build_candidates P cust_lat cust_lon rows) as [cs'|x]; cbn; [|discriminate].
    intros H. injection H as <-. constructor; [|now apply IH].
    repeat split; assumption.
Qed.

Lemma make_shortlist_from_rows (P : platform) (cust_lat cust_lon : float)
      (tech_rows : list technician_row) (shortlist : list candidate) (c : candidate) :
  make_shortlist P cust_lat cust_lon tech_rows = Ok shortlist ->
  In c shortlist ->
  exists r, In r tech_rows /\ candidate_of P cust_lat cust_lon r c.
Proof.
  unfold make_shortlist.
  destruct (build_candidates P cust_lat cust_lon tech_rows) as [cs|x] eqn:Hcs;
    cbn [bind]; [|discriminate].
  intros H Hc.
  assert (Heq : shortlist = firstn TOP_K (sort_by_key est cs)) by congruence.
  rewrite Heq in Hc. clear H Heq.
  apply In_firstn in Hc.
  apply (Permutation_in _ (sort_by_key_perm est cs)) in Hc.
  apply build_candidates_rel in Hcs.
  clear - Hcs Hc. induction Hcs as [|r c' rows cs' Hrc _ IH].
  - destruct Hc.
  - destruct Hc as [<-|Hc].
    + exists r. split; [now left | exact Hrc].
    + destruct (IH Hc) as (r' & Hin & Hr'). exists r'. split; [now right | exact Hr'].
Qed.



(* ================================================================== *)
(** * Further properties of the dispatch call *)
(* ================================================================== *)

(** What a call leaves behind: the database it was given, or that database
    after the insert of the assignment it returns. *)
Lemma dispatch_one_effect
      (P : platform) (ors : routing_service) (db : database) (cust_id : Z) :
  (db_after (dispatch_one P ors db cust_id) = db /\
   forall a, resp (dispatch_one P ors db cust_id) <> Returned a)
  \/
  (exists a row db',
      resp (dispatch_one P ors db cust_id) = Returned a /\
      insert_assignment db cust_id (tech_id a) (distance_km a) = Ok (row, db') /\
      db_after (dispatch_one P ors db cust_id) = db').
Proof.
  unfold dispatch_one.
  destruct (fetch_customer db cust_id) as [[customer|]|e0];
    [|left; split; [reflexivity|discriminate]..].
  destruct (fetch_active_technicians db) as [|t rows];
    [left; split; [reflexivity|discriminate]|].
  destruct (make_shortlist _ _ _ _) as [shortlist|e];
    [|left; split; [reflexivity|discriminate]].
  destruct (pick_best _ _) as [[best_id|] best_dist];
    [|left; split; [reflexivity|discriminate]].
  destruct (insert_assignment _ _ _ _) as [[row db']|e1] eqn:Hins;
    [|left; split; [reflexivity|discriminate]].
  right. eexists _, row, db'. cbn. repeat split. exact Hins.
Qed.

(** A call changes neither [customers] nor [technicians] nor the clock;
    it keeps every stored assignment, in place, and adds at most one after
    them; and a call that does not return an assignment leaves the database
    exactly as it was. *)
Theorem dispatch_one_preserves
        (P : platform) (ors : routing_service) (db : database) (cust_id : Z) :
  let r := dispatch_one P ors db cust_id in
  customers (db_after r) = customers db /\
  technicians (db_after r) = technicians db /\
  clock (db_after r) = clock db /\
  (exists new, assignments (db_after r) = assignments db ++ new /\
               (List.length new <= 1)%nat) /\
  ((forall a, resp r <> Returned a) -> db_after r = db).
Proof.
  cbv zeta.
  destruct (dispatch_one_effect P ors db cust_id)
    as [[Hdb Hresp] | (a & row & db' & Hresp & Hins & Hdb)].
  - rewrite Hdb. repeat split; auto. exists []. rewrite app_nil_r. auto.
  - rewrite Hdb.
    destruct (insert_assignment_inserted _ _ _ _ _ _ Hins)
      as (_ & Hrows & Hc & Ht & _ & Hclock).
    repeat split; auto.
    + exists [row]. auto.
    + intros H. destruct (H a Hresp).
Qed.

(** With the customer found and no active technician, the call raises
    [NoTechniciansAvailable] (503), writes nothing, and sends nothing to the
    routing service. *)
Theorem dispatch_one_no_technicians
        (P : platform) (ors : routing_service) (db : database) (cust_id : Z)
        (customer : customer_row) :
  fetch_customer db cust_id = Ok (Some customer) ->
  fetch_active_technicians db = [] ->
  resp (dispatch_one P ors db cust_id) = NoTechniciansAvailable /\
  db_after (dispatch_one P ors db cust_id) = db /\
  ors_log (dispatch_one P ors db cust_id) = [].
Proof.
  intros Hcust Hrows. unfold dispatch_one. rewrite Hcust, Hrows. cbn. auto.
Qed.

Lemma dispatch_one_no_technicians_witness :
  fetch_customer db_no_active_technician 1
  = Ok (Some {| customerid := 1; cust_latitude := zero; cust_longitude := zero |}) /\
  fetch_active_technicians db_no_active_technician = [] /\
  resp (dispatch_one small_angle_platform (ors_always NetworkError)
                     db_no_active_technician 1) = NoTechniciansAvailable.
Proof.
  assert (H1 : fetch_customer db_no_active_technician 1
               = Ok (Some {| customerid := 1; cust_latitude := zero; cust_longitude := zero |}))
    by reflexivity.
  assert (H2 : fetch_active_technicians db_no_active_technician = []) by reflexivity.
  split; [exact H1|]. split; [exact H2|].
  exact (proj1 (dispatch_one_no_technicians small_angle_platform (ors_always NetworkError)
                  db_no_active_technician 1 _ H1 H2)).
Defined.

(** The technician a call assigns is a row of [technicians] whose
    [is_active] is true, and the customer it assigns to is a row of
    [customers]; the routing distance it stores was asked from the
    customer's coordinates to that technician's. *)
Theorem dispatch_one_assigns_active
        (P : platform) (ors : routing_service) (db : database) (cust_id : Z)
        (a : AssignmentModel) :
  resp (dispatch_one P ors db cust_id) = Returned a ->
  exists customer t i,
    In customer (customers db) /\ customerid customer = cust_id /\
    In t (technicians db) /\ technicianid t = tech_id a /\
    is_active t = Some true /\
    outcome (get_distance_km P ors i (cust_latitude customer) (cust_longitude customer)
                             (tech_latitude t) (tech_longitude t))
    = Ok (distance_km a).
Proof.
  intros H.
  destruct (dispatch_one_returned P ors db cust_id a H)
    as (customer & shortlist & i & c & row & db' &
        Hcust & Hsl & _ & Hc & Hid & Hout & _).
  destruct (make_shortlist_from_rows _ _ _ _ _ c Hsl (nth_error_In _ _ Hc))
    as (t & Ht & Htid & Hlat & Hlon & _).
  unfold fetch_active_technicians in Ht. apply filter_In in Ht.
  destruct Ht as [Ht Hact].
  destruct (fetch_customer_found _ _ _ Hcust) as (_ & Hin & Heq).
  exists customer, t, i. repeat split; auto.
  - congruence.
  - unfold active in Hact. destruct (is_active t) as [[|]|]; congruence.
  - rewrite <- Hlat, <- Hlon. exact Hout.
Qed.

Lemma dispatch_one_assigns_active_witness :
  let r := dispatch_one small_angle_platform (ors_always (ors_ok (JInt 2500)))
                        db_six_technicians 1 in
  exists a, resp r = Returned a /\
  exists customer t i,
    In customer (customers db_six_technicians) /\ customerid customer = 1 /\
    In t (technicians db_six_technicians) /\ technicianid t = tech_id a /\
    is_active t = Some true /\
    outcome (get_distance_km small_angle_platform (ors_always (ors_ok (JInt 2500))) i
                             (cust_latitude customer) (cust_longitude customer)
                             (tech_latitude t) (tech_longitude t))
    = Ok (distance_km a).
Proof.
  cbv zeta. eexists. split; [vm_compute; reflexivity|].
  apply dispatch_one_assigns_active with (db := db_six_technicians).
  vm_compute. reflexivity.
Defined.



(** A distance that a call stores is below [inf], so it is neither [inf]
    nor a NaN. *)
Theorem dispatch_one_distance_below_inf
        (P : platform) (ors : routing_service) (db : database) (cust_id : Z)
        (a : AssignmentModel) :
  resp (dispatch_one P ors db cust_id) = Returned a ->
  flt (distance_km a) inf = true /\ is_nan (distance_km a) = false.
Proof.
  intros H.
  destruct (dispatch_one_returned P ors db cust_id a H)
    as (customer & shortlist & _ & _ & _ & _ & _ & _ & Hpick & _).
  apply pick_best_some in Hpick.
  - destruct Hpick as (i & c & _ & _ & _ & Hd). split; [exact Hd|].
    eapply flt_not_nan_l; eauto.
  - apply Nat.eq_le_incl, run_tasks_length.
Qed.

Lemma dispatch_one_distance_below_inf_witness :
  let a := {| id := Some 1; cust_id := 1; tech_id := 7;
              distance_km := of_Z 111; assigned_at := 1000 |} in
  resp (dispatch_one small_angle_platform (ors_always (ors_ok (JFloat (of_Z 111000))))
                     db_one_technician 1) = Returned a /\
  flt (distance_km a) inf = true /\ is_nan (distance_km a) = false.
Proof.
  cbv zeta.
  assert (H : resp (dispatch_one small_angle_platform
                      (ors_always (ors_ok (JFloat (of_Z 111000)))) db_one_technician 1)
              = Returned {| id := Some 1; cust_id := 1; tech_id := 7;
                            distance_km := of_Z 111; assigned_at := 1000 |})
    by (vm_compute; reflexivity).
  split; [exact H|].
  exact (dispatch_one_distance_below_inf _ _ _ _ _ H).
Defined.



(** When exactly one task returned a distance, and it is below [inf], the
    loop selects that task's technician with that distance, whatever its
    position in the shortlist. *)
Theorem pick_best_single_success
        (shortlist : list candidate) (tasks : list (result float))
        (i : nat) (c : candidate) (d : float) :
  List.length tasks = List.length shortlist ->
  nth_error shortlist i = Some c ->
  nth_error tasks i = Some (Ok d) ->
  flt d inf = true ->
  (forall j t, j <> i -> nth_error tasks j = Some t -> is_ok t = false) ->
  pick_best shortlist tasks = (Some (cand_tech_id c), d).
Proof.
  intros Hlen Hc Hi Hd Hothers.
  destruct (pick_best_best_after shortlist tasks (Nat.eq_le_incl _ _ Hlen))
    as [[_ Hnone] | (i' & c' & d' & _ & Hpick & Hc' & Hi' & _)].
  - assert (Hlt : (i < List.length tasks)%nat) by (apply nth_error_Some; congruence).
    rewrite (Hnone i d Hlt Hi) in Hd. discriminate.
  - destruct (Nat.eq_dec i' i) as [->|Hne].
    + rewrite Hpick. congruence.
    + specialize (Hothers i' (Ok d') Hne Hi'). discriminate.
Qed.

Lemma pick_best_single_success_witness :
  pick_best three_candidates [Err TransportError; Err HTTPStatusError; Ok (of_Z 9)]
  = (Some 13, of_Z 9).
Proof.
  apply (pick_best_single_success three_candidates
           [Err TransportError; Err HTTPStatusError; Ok (of_Z 9)] 2
           {| est := two; cand_tech_id := 13; tlat := zero; tlon := two |} (of_Z 9)).
  - reflexivity.
  - reflexivity.
  - reflexivity.
  - reflexivity.
  - intros j t Hj Ht.
    destruct j as [|[|[|j]]]; cbn in Ht; try congruence.
    + injection Ht as <-. reflexivity.
    + injection Ht as <-. reflexivity.
    + destruct j; discriminate.
Defined.

(* ================================================================== *)
(** * The requests a call sends *)
(* ================================================================== *)

Lemma get_distance_km_attempts (P : platform) (ors : routing_service) (idx : nat)
      (lat1 lon1 lat2 lon2 : float) :
  (1 <= attempts (get_distance_km P ors idx lat1 lon1 lat2 lon2) <= 3)%nat.
Proof.
  unfold get_distance_km, retry.
  destruct (retry_from_run get_distance_km_policy
              (fun n => attempt P (ors idx n {| start_lon := lon1; start_lat := lat1;
                                                end_lon := lon2; end_lat := lat2 |})) 2 1)
    as (H & _).
  exact H.
Qed.

Lemma In_enumerate {A : Type} (l : list A) (i : nat) (x : A) :
  In (i, x) (enumerate l) -> nth_error l i = Some x.
Proof.
  intros H. apply In_nth_error in H. destruct H as [n Hn].
  rewrite nth_error_enumerate in Hn.
  destruct (nth_error l n) as [y|] eqn:Hy; cbn in Hn; [|discriminate].
  injection Hn as <- <-. exact Hy.
Qed.

Lemma flat_map_length_le {A B : Type} (f : A -> list B) (k : nat) (l : list A) :
  (forall x, In x l -> (List.length (f x) <= k)%nat) ->
  (List.length (flat_map f l) <= k * List.length l)%nat.
Proof.
  induction l as [|x l IH]; intros H; cbn.
  - lia.
  - rewrite length_app.
    pose proof (H x (or_introl eq_refl)).
    assert ((List.length (flat_map f l) <= k * List.length l)%nat)
      by (apply IH; intros y Hy; apply H; now right).
    lia.
Qed.

Lemma calls_of_tasks_length (P : platform) (ors : routing_service)
      (cust_lat cust_lon : float) (shortlist : list candidate) :
  (List.length (calls_of_tasks P ors cust_lat cust_lon shortlist)
   <= 3 * List.length shortlist)%nat.
Proof.
  unfold calls_of_tasks. rewrite <- (enumerate_length shortlist).
  apply flat_map_length_le. intros [idx c] _.
  unfold calls_of_task. rewrite length_map, length_seq.
  apply get_distance_km_attempts.
Qed.

Lemma calls_of_tasks_In (P : platform) (ors : routing_service)
      (cust_lat cust_lon : float) (shortlist : list candidate) (call : ors_call) :
  In call (calls_of_tasks P ors cust_lat cust_lon shortlist) ->
  exists c,
    nth_error shortlist (call_task call) = Some c /\
    (1 <= call_attempt call <= 3)%nat /\
    call_params call = {| start_lon := cust_lon; start_lat := cust_lat;
                          end_lon := tlon c; end_lat := tlat c |}.
Proof.
  unfold calls_of_tasks. intros H. apply in_flat_map in H.
  destruct H as ([idx c] & Hin & Hcall).
  apply In_enumerate in Hin.
  unfold calls_of_task in Hcall. apply in_map_iff in Hcall.
  destruct Hcall as (n & <- & Hn). apply in_seq in Hn.
  pose proof (get_distance_km_attempts P ors idx cust_lat cust_lon (tlat c) (tlon c)).
  exists c. cbn. repeat split; auto; lia.
Qed.

Lemma make_shortlist_length_le (P : platform) (cust_lat cust_lon : float)
      (tech_rows : list technician_row) (shortlist : list candidate) :
  make_shortlist P cust_lat cust_lon tech_rows = Ok shortlist ->
  (List.length shortlist <= 5)%nat.
Proof.
  unfold make_shortlist.
  destruct (build_candidates P cust_lat cust_lon tech_rows) as [cs|x];
    cbn [bind]; [|discriminate].
  intros H.
  assert (Heq : shortlist = firstn TOP_K (sort_by_key est cs)) by congruence.
  rewrite Heq. apply firstn_le_length.
Qed.

Lemma dispatch_one_log
      (P : platform) (ors : routing_service) (db : database) (cust_id : Z) :
  ors_log (dispatch_one P ors db cust_id) = [] \/
  exists customer shortlist,
    fetch_customer db cust_id = Ok (Some customer) /\
    make_shortlist P (cust_latitude customer) (cust_longitude customer)
                   (fetch_active_technicians db) = Ok shortlist /\
    ors_log (dispatch_one P ors db cust_id)
    = calls_of_tasks P ors (cust_latitude customer) (cust_longitude customer) shortlist.
Proof.
  unfold dispatch_one.
  destruct (fetch_customer db cust_id) as [[customer|]|e0]; [|now left..].
  destruct (fetch_active_technicians db) as [|t rows]; [now left|].
  destruct (make_shortlist _ _ _ _) as [shortlist|e] eqn:Hsl; [|now left].
  right. exists customer, shortlist. split; [reflexivity|]. split; [exact Hsl|].
  destruct (pick_best _ _) as [[best_id|] best_dist]; [|reflexivity].
  destruct (insert_assignment _ _ _ _) as [[row db']|e1]; reflexivity.
Qed.

(** A call sends at most 15 requests to the routing service: at most three
    attempts for each of at most five tasks.  Every request goes from the
    coordinates of the call's customer to those of a technician of the
    table whose [is_active] is true. *)
Theorem dispatch_one_requests
        (P : platform) (ors : routing_service) (db : database) (cust_id : Z) :
  let r := dispatch_one P ors db cust_id in
  (List.length (ors_log r) <= 15)%nat /\
  forall call, In call (ors_log r) ->
    (call_task call < 5)%nat /\
    (1 <= call_attempt call <= 3)%nat /\
    exists customer t,
      fetch_customer db cust_id = Ok (Some customer) /\
      In t (technicians db) /\ is_active t = Some true /\
      call_params call = {| start_lon := cust_longitude customer;
                            start_lat := cust_latitude customer;
                            end_lon := tech_longitude t;
                            end_lat := tech_latitude t |}.
Proof.
  cbv zeta.
  destruct (dispatch_one_log P ors db cust_id)
    as [Hlog | (customer & shortlist & Hcust & Hsl & Hlog)]; rewrite Hlog.
  - split; [cbn; lia|]. intros call [].
  - pose proof (make_shortlist_length_le _ _ _ _ _ Hsl) as Hfive.
    split.
    + pose proof (calls_of_tasks_length P ors (cust_latitude customer)
                                        (cust_longitude customer) shortlist).
      lia.
    + intros call Hcall.
      apply calls_of_tasks_In in Hcall. destruct Hcall as (c & Hc & Hatt & Hparams).
      split.
      { assert ((call_task call < List.length shortlist)%nat)
          by (apply nth_error_Some; congruence).
        lia. }
      split; [exact Hatt|].
      destruct (make_shortlist_from_rows _ _ _ _ _ c Hsl (nth_error_In _ _ Hc))
        as (t & Ht & _ & Hlat & Hlon & _).
      unfold fetch_active_technicians in Ht. apply filter_In in Ht.
      destruct Ht as [Ht Hact].
      exists customer, t. split; [exact Hcust|]. split; [exact Ht|]. split.
      * unfold active in Hact. destruct (is_active t) as [[|]|]; congruence.
      * rewrite Hparams, Hlat, Hlon. reflexivity.
Qed.

(* ================================================================== *)
(** * Further properties of the shortlist *)
(* ================================================================== *)

Lemma insert_by_key_head {A : Type} (key : A -> float) (x : A) (l : list A) :
  Forall (fun y => flt (key y) (key x) = false) l ->
  insert_by_key key x l = x :: l.
Proof.
  intros H. destruct H as [|y l Hy _]; cbn; [reflexivity|]. now rewrite Hy.
Qed.

Lemma sort_by_key_no_descent {A : Type} (key : A -> float) (l : list A) :
  no_descent key l -> sort_by_key key l = l.
Proof.
  induction 1 as [|x l Hs IH Hx]; cbn.
  - reflexivity.
  - rewrite IH. now apply insert_by_key_head.
Qed.

(** When no technician row has an estimate strictly below that of an
    earlier row -- in particular when all estimates are equal -- the
    shortlist is the first five rows in table order: the sort moves
    nothing. *)
Theorem make_shortlist_keeps_order
        (P : platform) (cust_lat cust_lon : float) (tech_rows : list technician_row)
        (candidates : list candidate) :
  build_candidates P cust_lat cust_lon tech_rows = Ok candidates ->
  no_descent est candidates ->
  make_shortlist P cust_lat cust_lon tech_rows = Ok (firstn 5 candidates) /\
  map cand_tech_id (firstn 5 candidates) = firstn 5 (map technicianid tech_rows).
Proof.
  intros Hcs Hord. unfold make_shortlist. rewrite Hcs. cbn [bind].
  rewrite (sort_by_key_no_descent est candidates Hord). split; [reflexivity|].
  rewrite <- firstn_map. f_equal.
  apply build_candidates_rel in Hcs. clear Hord.
  induction Hcs as [|r c rows cs (Hid & _) _ IH]; cbn; [reflexivity|].
  now rewrite Hid, IH.
Qed.

Lemma make_shortlist_keeps_order_witness :
  let rows := [technician_at 31 2; technician_at 32 2; technician_at 33 2] in
  exists candidates,
    build_candidates small_angle_platform zero zero rows = Ok candidates /\
    no_descent est candidates /\
    make_shortlist small_angle_platform zero zero rows = Ok (firstn 5 candidates) /\
    map cand_tech_id (firstn 5 candidates) = [31; 32; 33].
Proof.
  cbv zeta. eexists.
  assert (H1 : build_candidates small_angle_platform zero zero
                 [technician_at 31 2; technician_at 32 2; technician_at 33 2]
               = Ok (map (fun n => {| est := S754_finite false 7824647346905068 (-45);
                                      cand_tech_id := n; tlat := zero; tlon := of_Z 2 |})
                         [31; 32; 33]))
    by (vm_compute; reflexivity).
  split; [exact H1|].
  assert (H2 : no_descent est
                 (map (fun n => {| est := S754_finite false 7824647346905068 (-45);
                                   cand_tech_id := n; tlat := zero; tlon := of_Z 2 |})
                      [31; 32; 33]))
    by (unfold no_descent; cbn [map]; repeat constructor).
  split; [exact H2|].
  exact (make_shortlist_keeps_order small_angle_platform zero zero _ _ H1 H2).
Defined.




(* ================================================================== *)
(** * Invariants of the service over time *)
(* ================================================================== *)

(** What one step does to the database. *)
Lemma step_effect (P : platform) (db db' : database) :
  step P db db' ->
  customers db' = customers db /\
  technicians db' = technicians db /\
  clock db <= clock db' /\
  ((assignments db' = assignments db /\
    assignments_id_seq db' = assignments_id_seq db)
   \/
   (exists cust_id best_id d,
       insert_assignment db cust_id best_id d
       = Ok (inserted_row db cust_id best_id d, db'))).
Proof.
  intros [ors db1 cust_id | db1 | db1 t Ht].
  - destruct (dispatch_one_effect P ors db1 cust_id)
      as [[Hdb _] | (a & row & db2 & _ & Hins & Hdb)]; rewrite Hdb.
    + split; [reflexivity|]. split; [reflexivity|]. split; [lia|].
      left. split; reflexivity.
    + destruct (insert_assignment_inserted _ _ _ _ _ _ Hins)
        as (Hrow & _ & Hc & Ht & _ & Hclock).
      split; [exact Hc|]. split; [exact Ht|]. split; [lia|].
      right. exists cust_id, (tech_id a), (distance_km a). now rewrite <- Hrow.
  - cbn. split; [reflexivity|]. split; [reflexivity|]. split; [lia|].
    left. split; reflexivity.
  - cbn. split; [reflexivity|]. split; [reflexivity|]. split; [exact Ht|].
    left. split; reflexivity.
Qed.

Lemma StronglySorted_snoc {A : Type} (R : A -> A -> Prop) (l : list A) (y : A) :
  StronglySorted R l -> Forall (fun x => R x y) l -> StronglySorted R (l ++ [y]).
Proof.
  induction 1 as [|x l Hs IH Hx]; cbn; intros Hy.
  - repeat constructor.
  - inversion Hy as [|? ? Hxy Hly]; subst. constructor; [now apply IH|].
    apply Forall_app. split; [exact Hx|]. now constructor.
Qed.

Lemma reachable_sample :
  reachable small_angle_platform db_one_technician db_after_two_calls.
Proof.
  unfold db_after_two_calls. cbv zeta.
  eapply reach_step; [|apply step_dispatch].
  eapply reach_step; [|apply step_clock].
  - eapply reach_step; [apply reach_start | apply step_dispatch].
  - vm_compute. discriminate.
Qed.

(** Whatever the service does, it changes neither [customers] nor
    [technicians], and it keeps every assignment it started with, in place,
    adding new ones only after them. *)
Theorem service_append_only (P : platform) (db0 db : database) :
  reachable P db0 db ->
  customers db = customers db0 /\
  technicians db = technicians db0 /\
  exists new, assignments db = assignments db0 ++ new.
Proof.
  induction 1 as [|db db' _ (Hc & Ht & new & Hnew) Hstep].
  - repeat split. exists []. now rewrite app_nil_r.
  - destruct (step_effect P db db' Hstep) as (Hc' & Ht' & _ & Heff).
    split; [congruence|]. split; [congruence|].
    destruct Heff as [[Ha _] | (cust_id & best_id & d & Hins)].
    + exists new. congruence.
    + destruct (insert_assignment_inserted _ _ _ _ _ _ Hins) as (_ & Hrows & _).
      exists (new ++ [inserted_row db cust_id best_id d]).
      rewrite Hrows, Hnew. now rewrite app_assoc.
Qed.

Lemma service_append_only_witness :
  reachable small_angle_platform db_one_technician db_after_two_calls /\
  customers db_after_two_calls = customers db_one_technician /\
  technicians db_after_two_calls = technicians db_one_technician /\
  exists new, assignments db_after_two_calls = assignments db_one_technician ++ new.
Proof.
  split; [exact reachable_sample|].
  exact (service_append_only small_angle_platform _ _ reachable_sample).
Defined.

(** From a database whose identifiers grow along the table and lie below
    the sequence, the service only reaches such databases: no two
    assignments ever share an identifier. *)
Theorem service_ids_unique (P : platform) (db0 db : database) :
  ids_fresh db0 ->
  reachable P db0 db ->
  ids_fresh db /\ NoDup (map row_id (assignments db)).
Proof.
  intros H0 Hreach.
  assert (Hinv : ids_fresh db).
  { induction Hreach as [|db db' _ [Hs Hb] Hstep]; [exact H0|].
    destruct (step_effect P db db' Hstep) as (_ & _ & _ & Heff).
    destruct Heff as [[Ha Hseq] | (cust_id & best_id & d & Hins)].
    - unfold ids_fresh. rewrite Ha, Hseq. now split.
    - destruct (insert_assignment_inserted _ _ _ _ _ _ Hins)
        as (_ & Hrows & _ & _ & Hseq & _).
      unfold ids_fresh. rewrite Hrows, Hseq. split.
      + apply StronglySorted_snoc; [exact Hs|exact Hb].
      + apply Forall_app. split.
        * eapply Forall_impl; [|exact Hb]. cbn. intros r Hr. lia.
        * repeat constructor. cbn. lia. }
  split; [exact Hinv|].
  destruct Hinv as [Hs _]. clear - Hs.
  induction Hs as [|x l Hs IH Hx]; cbn; constructor; [|exact IH].
  intros Hin. apply in_map_iff in Hin. destruct Hin as (y & Hy & Hin).
  rewrite Forall_forall in Hx. specialize (Hx y Hin). lia.
Qed.

Lemma service_ids_unique_witness :
  ids_fresh db_one_technician /\
  reachable small_angle_platform db_one_technician db_after_two_calls /\
  ids_fresh db_after_two_calls /\
  NoDup (map row_id (assignments db_after_two_calls)).
Proof.
  assert (H : ids_fresh db_one_technician) by (split; constructor).
  split; [exact H|]. split; [exact reachable_sample|].
  exact (service_ids_unique small_angle_platform _ _ H reachable_sample).
Defined.

(** From a database whose timestamps do not decrease along the table and
    are not ahead of the clock, the service only reaches such databases: a
    later assignment never carries an earlier time. *)
Theorem service_times_ordered (P : platform) (db0 db : database) :
  times_ordered db0 ->
  reachable P db0 db ->
  times_ordered db.
Proof.
  intros H0 Hreach.
  induction Hreach as [|db db' _ [Hs Hb] Hstep]; [exact H0|].
  destruct (step_effect P db db' Hstep) as (_ & _ & Hclock & Heff).
  destruct Heff as [[Ha _] | (cust_id & best_id & d & Hins)].
  - unfold times_ordered. rewrite Ha. split; [exact Hs|].
    eapply Forall_impl; [|exact Hb]. cbn. intros r Hr. lia.
  - destruct (insert_assignment_inserted _ _ _ _ _ _ Hins)
      as (_ & Hrows & _ & _ & _ & Hclk).
    unfold times_ordered. rewrite Hrows, Hclk. split.
    + apply StronglySorted_snoc; [exact Hs|exact Hb].
    + apply Forall_app. split; [exact Hb|].
      repeat constructor. cbn. lia.
Qed.

Lemma service_times_ordered_witness :
  times_ordered db_one_technician /\
  reachable small_angle_platform db_one_technician db_after_two_calls /\
  times_ordered db_after_two_calls.
Proof.
  assert (H : times_ordered db_one_technician) by (split; constructor).
  split; [exact H|]. split; [exact reachable_sample|].
  exact (service_times_ordered small_angle_platform _ _ H reachable_sample).
Defined.

(** From a database in which every assignment refers to a customer row
    and a technician row, the service only reaches such databases. *)
Theorem service_references_hold (P : platform) (db0 db : database) :
  references_hold db0 ->
  reachable P db0 db ->
  references_hold db.
Proof.
  intros H0 Hreach.
  induction Hreach as [|db db' _ IH Hstep]; [exact H0|].
  destruct (step_effect P db db' Hstep) as (Hc & Ht & _ & Heff).
  unfold references_hold in *. rewrite Hc, Ht.
  destruct Heff as [[Ha _] | (cust_id & best_id & d & Hins)].
  - now rewrite Ha.
  - destruct (insert_assignment_inserted _ _ _ _ _ _ Hins) as (_ & Hrows & _).
    rewrite Hrows. apply Forall_app. split; [exact IH|].
    constructor; [|constructor]. cbn.
    unfold insert_assignment in Hins.
    destruct (negb _); [discriminate|].
    destruct (existsb _ (customers db)) eqn:H1; [|discriminate].
    destruct (existsb _ (technicians db)) eqn:H2; [|discriminate].
    apply existsb_exists in H1. apply existsb_exists in H2.
    destruct H1 as (c & Hcin & Hceq). destruct H2 as (t & Htin & Hteq).
    split; [exists c | exists t]; (split; [assumption|now apply Z.eqb_eq]).
Qed.

Lemma service_references_hold_witness :
  references_hold db_one_technician /\
  reachable small_angle_platform db_one_technician db_after_two_calls /\
  references_hold db_after_two_calls.
Proof.
  assert (H : references_hold db_one_technician) by constructor.
  split; [exact H|]. split; [exact reachable_sample|].
  exact (service_references_hold small_angle_platform _ _ H reachable_sample).
Defined.

(* ================================================================== *)
(** * Listing after dispatching *)
(* ================================================================== *)

(** The assignment a call returns is listed afterwards, the listing has
    grown by exactly that one, and everything listed before is still
    listed. *)
Theorem dispatch_then_list
        (P : platform) (ors : routing_service) (db : database) (cust_id : Z)
        (a : AssignmentModel) :
  resp (dispatch_one P ors db cust_id) = Returned a ->
  exists before after,
    resp (list_assignments db) = Returned before /\
    resp (list_assignments (db_after (dispatch_one P ors db cust_id))) = Returned after /\
    In a after /\
    List.length after = S (List.length before) /\
    Permutation after (a :: before).
Proof.
  intros H.
  destruct (dispatch_one_returned P ors db cust_id a H)
    as (_ & _ & _ & _ & row & db' & _ & _ & _ & _ & _ & _ & Hins & Hdb & Ha).
  destruct (insert_assignment_inserted _ _ _ _ _ _ Hins) as (_ & Hrows & _).
  exists (map model_of_row (fetch_assignments db)),
         (map model_of_row (fetch_assignments db')).
  rewrite Hdb. split; [reflexivity|]. split; [reflexivity|].
  assert (Hperm : Permutation (map model_of_row (fetch_assignments db'))
                              (a :: map model_of_row (fetch_assignments db))).
  { rewrite Ha. change (model_of_row row :: map model_of_row (fetch_assignments db))
      with (map model_of_row (row :: fetch_assignments db)).
    apply Permutation_map. unfold fetch_assignments.
    rewrite order_by_assigned_at_desc_perm, Hrows.
    rewrite Permutation_app_comm. cbn.
    constructor. symmetry. apply order_by_assigned_at_desc_perm. }
  split; [|split].
  - apply (Permutation_in _ (Permutation_sym Hperm)). now left.
  - rewrite (Permutation_length Hperm). reflexivity.
  - exact Hperm.
Qed.

Lemma dispatch_then_list_witness :
  let r := dispatch_one small_angle_platform (ors_always (ors_ok (JFloat (of_Z 111000))))
                        db_three_assignments 1 in
  exists a, resp r = Returned a /\
  exists before after,
    resp (list_assignments db_three_assignments) = Returned before /\
    resp (list_assignments (db_after r)) = Returned after /\
    In a after /\
    List.length after = S (List.length before) /\
    Permutation after (a :: before).
Proof.
  cbv zeta. eexists. split; [vm_compute; reflexivity|].
  apply dispatch_then_list. vm_compute. reflexivity.
Defined.

Lemma insert_desc_last (x : assignment_row) (l : list assignment_row) :
  Forall (fun y => row_assigned_at x < row_assigned_at y) l ->
  insert_desc x l = l ++ [x].
Proof.
  induction 1 as [|y l Hy _ IH]; cbn; [reflexivity|].
  apply Z.ltb_lt in Hy. now rewrite Hy, IH.
Qed.

Lemma order_by_assigned_at_desc_rev (l : list assignment_row) :
  StronglySorted (fun r1 r2 => row_assigned_at r1 < row_assigned_at r2) l ->
  order_by_assigned_at_desc l = rev l.
Proof.
  induction 1 as [|x l Hs IH Hx]; cbn; [reflexivity|].
  rewrite IH. apply insert_desc_last.
  apply Forall_forall. intros y Hy. apply in_rev in Hy.
  rewrite Forall_forall in Hx. now apply Hx.
Qed.

(** When each stored assignment is strictly later than the one before it,
    the listing is the table read backwards. *)
Theorem list_assignments_reverse (db : database) :
  StronglySorted (fun r1 r2 => row_assigned_at r1 < row_assigned_at r2) (assignments db) ->
  resp (list_assignments db) = Returned (rev (map model_of_row (assignments db))).
Proof.
  intros H. unfold list_assignments, fetch_assignments. cbn.
  rewrite (order_by_assigned_at_desc_rev _ H). now rewrite map_rev.
Qed.

Lemma list_assignments_reverse_witness :
  StronglySorted (fun r1 r2 => row_assigned_at r1 < row_assigned_at r2)
                 (assignments db_after_two_calls) /\
  resp (list_assignments db_after_two_calls)
  = Returned (rev (map model_of_row (assignments db_after_two_calls))).
Proof.
  assert (H : StronglySorted (fun r1 r2 => row_assigned_at r1 < row_assigned_at r2)
                             (assignments db_after_two_calls)).
  { vm_compute. repeat constructor. }
  split; [exact H|].
  exact (list_assignments_reverse db_after_two_calls H).
Defined.

(* ================================================================== *)
(** * Further properties of the routing resolver *)
(* ================================================================== *)

(** An attempt returns [d] exactly when the reply has a good status and a
    JSON body whose distance field is not null and converts, by [float()],
    to [m] with [d = m / 1000.0]. *)
Theorem attempt_returns_iff (P : platform) (r : http_reply) (d : float) :
  attempt P r = Ok d <->
  exists data x m,
    r = Reply false (Some data) /\
    distance_field data = Some x /\ x <> JNull /\
    py_float P x = Ok m /\ d = fdiv m thousand.
Proof.
  split.
  - intros H. apply attempt_returned in H. destruct H as (data & -> & Hbody).
    apply distance_of_body_returned in Hbody.
    destruct Hbody as (x & m & Hx & Hnn & Hm & Hd).
    now exists data, x, m.
  - intros (data & x & m & -> & Hx & Hnn & Hm & ->). cbn [attempt].
    unfold distance_of_body. rewrite (distance_field_m_of_body data x Hx). cbn [bind].
    rewrite Hm. destruct x; try reflexivity. congruence.
Qed.

(** A distance of zero is a distance, not a missing one: when the distance
    field is the integer 0 or a float zero, the attempt returns a zero. *)
Theorem attempt_zero_distance (P : platform) (data x : json) :
  distance_field data = Some x ->
  x = JInt 0 \/ (exists s, x = JFloat (S754_zero s)) ->
  exists s, attempt P (Reply false (Some data)) = Ok (S754_zero s).
Proof.
  intros Hx [-> | [s ->]].
  - exists false. cbn [attempt].
    rewrite (distance_of_body_number P data (JInt 0) zero Hx eq_refl). reflexivity.
  - exists s. cbn [attempt].
    rewrite (distance_of_body_number P data (JFloat (S754_zero s)) (S754_zero s) Hx eq_refl).
    destruct s; reflexivity.
Qed.

Lemma attempt_zero_distance_witness :
  distance_field (ors_body (JInt 0)) = Some (JInt 0) /\
  exists s, attempt small_angle_platform (Reply false (Some (ors_body (JInt 0))))
            = Ok (S754_zero s).
Proof.
  split; [reflexivity|].
  exact (attempt_zero_distance small_angle_platform (ors_body (JInt 0)) (JInt 0)
           eq_refl (or_introl eq_refl)).
Defined.

(** A float that is not positive: [x <= 0.0]. *)
Lemma fle_cases_zero (x : float) :
  fle x zero = true <->
  match x with
  | S754_zero _ | S754_infinity true | S754_finite true _ _ => True
  | _ => False
  end.
Proof.
  destruct x as [[|]|[|]| |[|] m e]; cbn; intuition discriminate.
Qed.

(** The quotient by 1000.0 of a finite float that is not zero has the sign
    of the float and is not a NaN. *)
Lemma fdiv_thousand_nonpos (m : float) :
  fle m zero = true -> fle (fdiv m thousand) zero = true.
Proof.
  intros H. apply fle_cases_zero in H. apply fle_cases_zero.
  destruct m as [s|[|]| |[|] mx ex]; try contradiction; try exact I.
  pose proof (fdiv_thousand_finite true mx ex) as Hs.
  destruct (fdiv (S754_finite true mx ex) thousand); subst; auto.
Qed.

(** The kilometres an attempt returns keep the sign of the metres the
    service sent, and are a NaN only when the metres are: nothing the
    division does can make a negative distance positive, or the reverse. *)
Theorem attempt_keeps_sign (P : platform) (data : json) (d : float) :
  attempt P (Reply false (Some data)) = Ok d ->
  exists x m,
    distance_field data = Some x /\ py_float P x = Ok m /\
    is_nan d = is_nan m /\
    (fle zero m = true -> fle zero d = true) /\
    (fle m zero = true -> fle d zero = true).
Proof.
  cbn [attempt]. intros H. apply distance_of_body_returned in H.
  destruct H as (x & m & Hx & _ & Hm & ->).
  exists x, m. split; [exact Hx|]. split; [exact Hm|].
  split; [apply fdiv_thousand_is_nan|].
  split; [apply fdiv_thousand_nonneg | apply fdiv_thousand_nonpos].
Qed.

Lemma attempt_keeps_sign_witness :
  let data := ors_body (JInt (-2500)) in
  attempt small_angle_platform (Reply false (Some data))
  = Ok (fdiv (of_Z (-2500)) thousand) /\
  exists x m,
    distance_field data = Some x /\ py_float small_angle_platform x = Ok m /\
    is_nan (fdiv (of_Z (-2500)) thousand) = is_nan m /\
    (fle zero m = true -> fle zero (fdiv (of_Z (-2500)) thousand) = true) /\
    (fle m zero = true -> fle (fdiv (of_Z (-2500)) thousand) zero = true).
Proof.
  cbv zeta.
  assert (H : attempt small_angle_platform (Reply false (Some (ors_body (JInt (-2500)))))
              = Ok (fdiv (of_Z (-2500)) thousand)) by reflexivity.
  split; [exact H|].
  exact (attempt_keeps_sign small_angle_platform _ _ H).
Defined.

(** A resolution stops at its first successful attempt: when attempt [n]
    of the three is the first to return, the resolution returns what it
    returned, has made exactly [n] attempts, and has slept the first [n - 1]
    of the waits 1 and 2. *)
Theorem get_distance_km_first_success
        (P : platform) (ors : routing_service) (idx : nat) (lat1 lon1 lat2 lon2 : float)
        (n : nat) (d : float) :
  let params := {| start_lon := lon1; start_lat := lat1;
                   end_lon := lon2; end_lat := lat2 |} in
  let run := get_distance_km P ors idx lat1 lon1 lat2 lon2 in
  (1 <= n <= 3)%nat ->
  (forall k, (1 <= k < n)%nat -> is_ok (attempt P (ors idx k params)) = false) ->
  attempt P (ors idx n params) = Ok d ->
  outcome run = Ok d /\ attempts run = n /\ sleeps run = firstn (n - 1) [1; 2].
Proof.
  intros params run Hn Hfail Hok.
  destruct (retry_from_first_success get_distance_km_policy
              (fun k => attempt P (ors idx k params)) 2 1 n d) as [Hout Hatt]; auto.
  destruct (retry_from_run get_distance_km_policy
              (fun k => attempt P (ors idx k params)) 2 1) as (_ & _ & Hsl & _).
  change (retry_from get_distance_km_policy
            (fun k => attempt P (ors idx k params)) 2 1) with run in *.
  split; [exact Hout|]. split; [exact Hatt|].
  rewrite Hsl, Hatt.
  assert (Hc : n = 1%nat \/ n = 2%nat \/ n = 3%nat) by lia.
  destruct Hc as [-> | [-> | ->]]; reflexivity.
Qed.

Lemma get_distance_km_first_success_witness :
  let ors : routing_service :=
    fun _ n _ => match n with 2%nat => ors_ok (JInt 2500) | _ => NetworkError end in
  let run := get_distance_km small_angle_platform ors 0 zero zero zero one in
  outcome run = Ok (fdiv (of_Z 2500) thousand) /\ attempts run = 2%nat /\ sleeps run = [1].
Proof.
  cbv zeta.
  apply (get_distance_km_first_success small_angle_platform _ 0 zero zero zero one 2).
  - lia.
  - intros k Hk. assert (k = 1%nat) by lia. subst k. reflexivity.
  - reflexivity.
Defined.

(** A resolution fails exactly when its three attempts all fail; it has
    then made three attempts.  Failing or not, it sleeps at most 3 time
    units in all. *)
Theorem get_distance_km_fails_iff
        (P : platform) (ors : routing_service) (idx : nat) (lat1 lon1 lat2 lon2 : float) :
  let params := {| start_lon := lon1; start_lat := lat1;
                   end_lon := lon2; end_lat := lat2 |} in
  let try_ n := attempt P (ors idx n params) in
  let run := get_distance_km P ors idx lat1 lon1 lat2 lon2 in
  (is_ok (outcome run) = false <->
   is_ok (try_ 1%nat) = false /\ is_ok (try_ 2%nat) = false /\ is_ok (try_ 3%nat) = false) /\
  (is_ok (outcome run) = false -> attempts run = 3%nat /\ sleeps run = [1; 2]) /\
  fold_right Z.add 0 (sleeps run) <= 3.
Proof.
  intros params try_ run.
  destruct (retry_from_run get_distance_km_policy try_ 2 1)
    as (Hatt & Hfail & Hsl & Hok & Herr).
  change (retry_from get_distance_km_policy try_ 2 1) with run in *.
  assert (Hc : attempts run = 1%nat \/ attempts run = 2%nat \/ attempts run = 3%nat)
    by lia.
  assert (Hfailed : is_ok (outcome run) = false ->
                    attempts run = 3%nat /\ is_ok (try_ (attempts run)) = false).
  { intros Hout. destruct (try_ (attempts run)) as [d|e] eqn:Hlast.
    - rewrite Hok in Hout by reflexivity. discriminate.
    - destruct (Herr e eq_refl) as [Hn _]. split; [exact Hn|reflexivity]. }
  split; [split|split].
  - intros Hout. destruct (Hfailed Hout) as [Hthree Hlast].
    rewrite Hthree in *. repeat split; auto; apply Hfail; lia.
  - intros (H1 & H2 & H3).
    destruct (try_ (attempts run)) as [d|e] eqn:Hlast.
    + destruct Hc as [Hc | [Hc | Hc]]; rewrite Hc in Hlast;
        [rewrite Hlast in H1 | rewrite Hlast in H2 | rewrite Hlast in H3]; discriminate.
    + destruct (Herr e eq_refl) as [_ Hout]. rewrite Hout. reflexivity.
  - intros Hout. destruct (Hfailed Hout) as [Hthree _]. split; [exact Hthree|].
    rewrite Hsl, Hthree. reflexivity.
  - rewrite Hsl. destruct Hc as [-> | [-> | ->]]; vm_compute; discriminate.
Qed.

(* ================================================================== *)
(** * An estimate that raises *)
(* ================================================================== *)

Lemma build_candidates_first_error (P : platform) (cust_lat cust_lon : float)
      (pre post : list technician_row) (r : technician_row) (e : exn) :
  Forall (fun r' => is_ok (haversine_km P cust_lat cust_lon
                                        (tech_latitude r') (tech_longitude r')) = true) pre ->
  haversine_km P cust_lat cust_lon (tech_latitude r) (tech_longitude r) = Err e ->
  build_candidates P cust_lat cust_lon (pre ++ r :: post) = Err e.
Proof.
  intros Hpre Hr. induction Hpre as [|r' pre Hr' _ IH]; cbn.
  - now rewrite Hr.
  - destruct (haversine_km P cust_lat cust_lon (tech_latitude r') (tech_longitude r'));
      [|discriminate].
    cbn. now rewrite IH.
Qed.

(** When the estimate of some active technician raises, the call lets the
    exception of the first such technician, in table order, escape; it
    writes nothing and sends nothing to the routing service, even if other
    technicians could have been resolved. *)
Theorem dispatch_one_estimate_error
        (P : platform) (ors : routing_service) (db : database) (cust_id : Z)
        (customer : customer_row) (pre post : list technician_row)
        (r : technician_row) (e : exn) :
  fetch_customer db cust_id = Ok (Some customer) ->
  fetch_active_technicians db = pre ++ r :: post ->
  Forall (fun r' => is_ok (haversine_km P (cust_latitude customer) (cust_longitude customer)
                                        (tech_latitude r') (tech_longitude r')) = true) pre ->
  haversine_km P (cust_latitude customer) (cust_longitude customer)
               (tech_latitude r) (tech_longitude r) = Err e ->
  resp (dispatch_one P ors db cust_id) = Unhandled e /\
  db_after (dispatch_one P ors db cust_id) = db /\
  ors_log (dispatch_one P ors db cust_id) = [].
Proof.
  intros Hcust Hrows Hpre Hr.
  pose proof (build_candidates_first_error P _ _ pre post r e Hpre Hr) as Hcs.
  unfold dispatch_one. rewrite Hcust, Hrows.
  destruct (pre ++ r :: post) as [|t rows] eqn:Hl.
  - destruct pre; discriminate.
  - unfold make_shortlist. rewrite Hcs. cbn. auto.
Qed.

Lemma dispatch_one_estimate_error_witness :
  let P := small_angle_platform in
  let ors := ors_always (ors_ok (JInt 2500)) in
  let db := db_technician_at_infinity in
  resp (dispatch_one P ors db 1) = Unhandled domain_error /\
  db_after (dispatch_one P ors db 1) = db /\
  ors_log (dispatch_one P ors db 1) = [].
Proof.
  cbv zeta.
  apply (dispatch_one_estimate_error small_angle_platform _ db_technician_at_infinity 1
           {| customerid := 1; cust_latitude := zero; cust_longitude := zero |}
           [technician_at 41 1] []
           {| technicianid := 42; tech_latitude := inf; tech_longitude := zero;
              is_active := Some true |}).
  - reflexivity.
  - reflexivity.
  - repeat constructor.
  - reflexivity.
Defined.

(* ================================================================== *)
(** * Start-up and health *)
(* ================================================================== *)

(** Importing the module: a port that [int()] rejects raises before
    anything else is checked; then a password that is absent or empty
    raises "DB_PASSWORD is required", whatever the key; then a key that is
    absent or empty raises "OPENROUTE_API_KEY is required".  A
    configuration that loads has the password and the key of the
    environment, both non-empty, and the parsed port. *)
Theorem load_config_checks (py_int : string -> option Z) (env : environ) :
  (load_config py_int env = inr PortValueError <->
   py_int (getenv env "DB_PORT" "5432") = None) /\
  (forall port,
      py_int (getenv env "DB_PORT" "5432") = Some port ->
      str_truthy (environ_get env "DB_PASSWORD") = false ->
      load_config py_int env = inr (RuntimeError "DB_PASSWORD is required")) /\
  (forall port,
      py_int (getenv env "DB_PORT" "5432") = Some port ->
      str_truthy (environ_get env "DB_PASSWORD") = true ->
      str_truthy (environ_get env "OPENROUTE_API_KEY") = false ->
      load_config py_int env = inr (RuntimeError "OPENROUTE_API_KEY is required")) /\
  (forall cfg,
      load_config py_int env = inl cfg ->
      environ_get env "DB_PASSWORD" = Some (DB_PASSWORD cfg) /\
      DB_PASSWORD cfg <> EmptyString /\
      environ_get env "OPENROUTE_API_KEY" = Some (ORS_API_KEY cfg) /\
      ORS_API_KEY cfg <> EmptyString /\
      py_int (getenv env "DB_PORT" "5432") = Some (DB_PORT cfg)).
Proof.
  unfold load_config.
  destruct (py_int (getenv env "DB_PORT" "5432")) as [port|] eqn:Hport.
  - split; [|split; [|split]].
    + split; [|discriminate].
      destruct (str_truthy (environ_get env "DB_PASSWORD"));
        destruct (str_truthy (environ_get env "OPENROUTE_API_KEY")); discriminate.
    + intros p _ Hpw. now rewrite Hpw.
    + intros p _ Hpw Hkey. now rewrite Hpw, Hkey.
    + intros cfg. unfold getenv.
      destruct (environ_get env "DB_PASSWORD") as [[|c pw]|]; cbn; try discriminate.
      destruct (environ_get env "OPENROUTE_API_KEY") as [[|c' key]|]; cbn; try discriminate.
      intros H. injection H as <-. cbn. repeat split; discriminate.
  - split; [|split; [|split]].
    + split; reflexivity.
    + intros p H. discriminate.
    + intros p H. discriminate.
    + intros cfg H. discriminate.
Qed.

Example load_config_defaults :
  load_config int_of_default_port
              [("DB_PASSWORD", "s3cret"); ("OPENROUTE_API_KEY", "key")]%string
  = inl {| DB_HOST := "localhost"; DB_PORT := 5432; DB_NAME := "technician_short";
           DB_USER := "postgres"; DB_PASSWORD := "s3cret"; ORS_API_KEY := "key";
           ORS_BASE_URL := "https://api.openrouteservice.org/v2/directions/driving-car" |}.
Proof. reflexivity. Qed.

Example load_config_empty_port :
  load_config int_of_default_port
              [("DB_PORT", ""); ("DB_PASSWORD", "s3cret"); ("OPENROUTE_API_KEY", "key")]%string
  = inr PortValueError.
Proof. reflexivity. Qed.

(** [init_db] can be run again at every start: run twice it does what it
    does once; it leaves every table that exists as it is, so on a schema
    that is complete it changes nothing; and after it the three tables
    exist. *)
Theorem init_db_idempotent (c : catalog) :
  init_db (init_db c) = init_db c /\
  (forall rows, tbl_customers c = Some rows -> tbl_customers (init_db c) = Some rows) /\
  (forall rows, tbl_technicians c = Some rows -> tbl_technicians (init_db c) = Some rows) /\
  (forall rows, tbl_assignments c = Some rows -> tbl_assignments (init_db c) = Some rows) /\
  (forall now db, database_of c now = Some db ->
                  init_db c = c /\ database_of (init_db c) now = Some db) /\
  (forall now, exists db, database_of (init_db c) now = Some db).
Proof.
  destruct c as [[cs|] [ts|] [[rows next]|]]; cbn;
    repeat split; intros; try discriminate; try congruence; eauto.
Qed.

(** [healthz] answers in every state with a body whose only field is a
    [status] string; the status is "ok" exactly when the pool is open and
    the server answers; and after [on_shutdown] it is "db_unavailable"
    whatever the server does. *)
Theorem healthz_status (st : app_state) (server_up : bool) :
  (exists s, healthz st server_up = JObj [("status"%string, JStr s)]) /\
  (healthz st server_up = JObj [("status"%string, JStr "ok")] <->
   st = Some PoolOpen /\ server_up = true) /\
  healthz (on_shutdown st) server_up = JObj [("status"%string, JStr "db_unavailable")].
Proof.
  destruct st as [[|]|]; destruct server_up; cbn;
    (split; [eexists; reflexivity|]); (split; [|reflexivity]);
    split; intros H; try discriminate; try (destruct H; discriminate); auto.
Qed.
